(** * Inflation-index fixings (ql/indexes/inflationindex.cpp)

    A shallow embedding of the fixing engines of the zero and year-on-year
    inflation indexes, of the lagged-CPI helper and of the fixing store,
    followed by the properties the specification states about them.

    Dates are serial day numbers, as in the library's [Date] class, so the
    difference of two dates is an integer and [d + 1] is the next day.
    Floating-point arithmetic is kept abstract: the engines are written over
    an arbitrary carrier [Real] with uninterpreted operations, and every
    theorem about a computed value identifies the expression the code
    evaluates, whatever the arithmetic is. *)

From Stdlib Require Import ZArith Lia Bool List String Reals Lra.
From stdpp Require Import gmap.
Import ListNotations.

Open Scope Z_scope.

(** ** Dates, periods, frequencies *)

Notation Date := Z (only parsing).

Inductive TimeUnit := Days | Weeks | Months | Years.

Record Period := mkPeriod { plength : Z; punits : TimeUnit }.

(** The publication cadences an inflation period is defined for. *)
Inductive Frequency := Annual | Semiannual | Quarterly | Monthly.

(** Modelled from the spec: the [Period(Frequency)] conversion, defined
    outside inflationindex.cpp: "one full publication period" of the
    cadence. *)
Definition Period_of_Frequency (f : Frequency) : Period :=
  match f with
  | Annual => mkPeriod 1 Years
  | Semiannual => mkPeriod 6 Months
  | Quarterly => mkPeriod 3 Months
  | Monthly => mkPeriod 1 Months
  end.

(** The calendar utilities the engines call.  They live outside the file
    under study, so the engines take them as an interface:
    - [inflationPeriod d f] is the inclusive [(start, end)] range of the
      publication period containing [d];
    - [advance d n u] is [Date::advance], the date [n] units after [d];
    - [firstDayOfMonth d] is [Date(1, d.month(), d.year())]. *)
Class Calendar := {
  inflationPeriod : Date -> Frequency -> Date * Date;
  advance : Date -> Z -> TimeUnit -> Date;
  firstDayOfMonth : Date -> Date
}.

(** [Date + Period] and [Date - Period]. *)
Definition date_plus `{Calendar} (d : Date) (p : Period) : Date :=
  advance d (plength p) (punits p).

Definition date_minus `{Calendar} (d : Date) (p : Period) : Date :=
  advance d (- plength p) (punits p).

(** Modelled from the spec: [NullCalendar().advance(d, p, ModifiedFollowing)],
    defined outside inflationindex.cpp.  The calendar has no holidays, so
    the business-day adjustment leaves the advanced date where it is. *)
Definition NullCalendar_advance `{Calendar} (d : Date) (p : Period) : Date :=
  date_plus d p.

(** What the engines rely on from the calendar utilities. *)
Class CalendarLaws `{Calendar} : Prop := {
  period_contains : forall d f,
    fst (inflationPeriod d f) <= d <= snd (inflationPeriod d f);
  period_canonical : forall d d' f,
    fst (inflationPeriod d f) <= d' <= snd (inflationPeriod d f) ->
    inflationPeriod d' f = inflationPeriod d f;
  period_next : forall d f,
    fst (inflationPeriod (snd (inflationPeriod d f) + 1) f)
      = snd (inflationPeriod d f) + 1;
  month_start_le : forall d, firstDayOfMonth d <= d;
  month_start_monthly : forall d,
    firstDayOfMonth d = fst (inflationPeriod d Monthly);
  advance_forward : forall d n u, 0 <= n -> d <= advance d n u;
  advance_backward : forall d n u, n <= 0 -> advance d n u <= d
}.

(** A key of the series is a period start when it opens its own period. *)
Definition isPeriodStart `{Calendar} (f : Frequency) (k : Date) : Prop :=
  fst (inflationPeriod k f) = k.

(** ** Real arithmetic *)

(** The operations the engines perform on [Real] values; [ofInt] is the
    implicit conversion of a day count, [rpow] is [std::pow]. *)
Class RealArith := {
  Real : Type;
  Real_eq_dec :: EqDecision Real;
  rone : Real;
  radd : Real -> Real -> Real;
  rsub : Real -> Real -> Real;
  rmul : Real -> Real -> Real;
  rdiv : Real -> Real -> Real;
  rpow : Real -> Real -> Real;
  ofInt : Z -> Real
}.

Declare Scope ql_scope.
Delimit Scope ql_scope with ql.
Infix "+" := radd : ql_scope.
Infix "-" := rsub : ql_scope.
Infix "*" := rmul : ql_scope.
Infix "/" := rdiv : ql_scope.

(** Year fractions between dates under a day-count convention. *)
Class YearFraction `{RealArith} := {
  DayCounter : Type;
  inflationYearFraction : Frequency -> bool -> DayCounter -> Date -> Date -> Real
}.

(** ** Failures and the lookup log *)

(** The fatal errors of the core, with the data their messages carry. *)
Inductive Error :=
| MissingFixing (index : string) (d : Date)
| DuplicateFixing (d : Date)
| InvalidBaseDate (index : string) (d : Date)
| UnsupportedInterpolation (tag : Z)
| UnboundCurve
| Diverged.

Inductive result (A : Type) :=
| Ok (a : A)
| Fail (e : Error).
Arguments Ok {A} a.
Arguments Fail {A} e.

(** A computation of the engines: the keys it read from the fixing series,
    in order, and its outcome. *)
Definition M (A : Type) : Type := (list Z * result A)%type.

Definition ret {A} (a : A) : M A := ([], Ok a).

Definition raise {A} (e : Error) : M A := ([], Fail e).

Definition bind {A B} (m : M A) (k : A -> M B) : M B :=
  match m with
  | (t, Ok a) => let '(t', r) := k a in (t ++ t', r)
  | (t, Fail e) => (t, Fail e)
  end.

Notation "x <- m ;; k" := (bind m (fun x => k))
  (at level 100, m at next level, right associativity).

Definition keys {A} (m : M A) : list Z := fst m.
Definition outcome {A} (m : M A) : result A := snd m.

(** [QL_REQUIRE(cond, message)]. *)
Definition QL_REQUIRE (cond : bool) (e : Error) : M unit :=
  if cond then ret tt else raise e.

(** Dereferencing a curve handle: an empty handle cannot be dereferenced. *)
Definition deref {A} (h : option A) : M A :=
  match h with
  | Some c => ret c
  | None => raise UnboundCurve
  end.

Section Series.
Context {RA : RealArith}.

(** [Real f = ts[key]]: a point lookup, [None] standing for the
    "missing" sentinel [Null<Real>()]. *)
Definition read (ts : gmap Z Real) (key : Date) : M (option Real) :=
  ([key], Ok (ts !! key)).

(** [Real x = ts[key]; QL_REQUIRE(x != Null<Real>(),
    "Missing " << index << " fixing for " << reported)]. *)
Definition readRequired (ts : gmap Z Real) (key : Date)
    (index : string) (reported : Date) : M Real :=
  x <- read ts key ;;
  match x with
  | Some v => ret v
  | None => raise (MissingFixing index reported)
  end.

(** A computation reports its missing fixings faithfully when every
    MissingFixing it fails with names the index and a key it read and
    found absent. *)
Definition reportsKey {A} (ts : gmap Z Real) (index : string) (m : M A) : Prop :=
  forall i k, outcome m = Fail (MissingFixing i k) ->
    i = index /\ In k (keys m) /\ ts !! k = None.
End Series.

(** ** Curves *)

Module ZeroInflationTermStructure.
Section Curve.
Context {RA : RealArith} {YF : YearFraction}.
Record t := {
  baseDate : Date;
  observationLag : Period;
  zeroRate : Date -> Period -> bool -> Real;
  dayCounter : DayCounter
}.
End Curve.
End ZeroInflationTermStructure.

Module YoYInflationTermStructure.
Section Curve.
Context {RA : RealArith}.
Record t := {
  yoyRate : Date -> Period -> Real
}.
End Curve.
End YoYInflationTermStructure.

(** ** The index and its fixing store *)

Module InflationIndex.
Record t := {
  familyName : string;
  regionName : string;
  revised : bool;
  interpolated : bool;
  frequency : Frequency;
  availabilityLag : Period;
  currency : string
}.

Definition name (self : t) : string :=
  (regionName self ++ " " ++ familyName self)%string.

Section Store.
Context {RA : RealArith} {Cal : Calendar}.

(** Modelled from the spec: [Index::addFixings], defined outside
    inflationindex.cpp.  It writes each value at its date and fails with
    DuplicateFixing if a target day already holds a different fixing
    and [forceOverwrite] is false. *)
Fixpoint addFixings (ts : gmap Z Real) (dates : list Date)
    (rates : list Real) (forceOverwrite : bool) : result (gmap Z Real) :=
  match dates, rates with
  | d :: dates', v :: rates' =>
      match ts !! d with
      | Some v0 =>
          if forceOverwrite then
            addFixings (<[d := v]> ts) dates' rates' forceOverwrite
          else if decide (v0 = v) then
            addFixings ts dates' rates' forceOverwrite
          else Fail (DuplicateFixing d)
      | None => addFixings (<[d := v]> ts) dates' rates' forceOverwrite
      end
  | _, _ => Ok ts
  end.

(** [InflationIndex::addFixing]: the submitted value is replicated on
    every day of the period containing [fixingDate].  The day count
    [n] is a [Size]; a period never ends before it starts. *)
Definition addFixing (self : t) (ts : gmap Z Real) (fixingDate : Date)
    (fixing : Real) (forceOverwrite : bool) : result (gmap Z Real) :=
  let lim := inflationPeriod fixingDate (frequency self) in
  let n := (Z.to_nat (snd lim - fst lim) + 1)%nat in
  let dates := map (fun i => fst lim + Z.of_nat i) (seq 0 n) in
  let rates := map (fun _ => fixing) (seq 0 n) in
  addFixings ts dates rates forceOverwrite.
End Store.
End InflationIndex.

(** ** Zero inflation fixing engine *)

Module ZeroInflationIndex.
Section Engine.
Context {RA : RealArith} {YF : YearFraction} {Cal : Calendar}.

Record t := {
  base : InflationIndex.t;
  zeroInflation : option ZeroInflationTermStructure.t
}.

Definition name (self : t) : string := InflationIndex.name (base self).
Definition interpolated (self : t) : bool := InflationIndex.interpolated (base self).
Definition frequency (self : t) : Frequency := InflationIndex.frequency (base self).
Definition availabilityLag (self : t) : Period :=
  InflationIndex.availabilityLag (base self).

(** The latest day guaranteed to have a published fixing (lines 159-163). *)
Definition historicalFixingKnown (self : t) (today : Date) : Date :=
  let todayMinusLag := date_minus today (availabilityLag self) in
  fst (inflationPeriod todayMinusLag (frequency self)) - 1.

(** The last date whose fixing the request depends on (lines 164-170). *)
Definition latestNeededDate (self : t) (fixingDate : Date) : Date :=
  if interpolated self then
    let p := inflationPeriod fixingDate (frequency self) in
    if fst p <? fixingDate
    then date_plus fixingDate (Period_of_Frequency (frequency self))
    else fixingDate
  else fixingDate.

(** [ZeroInflationIndex::needsForecast]. *)
Definition needsForecast (self : t) (today : Date) (ts : gmap Z Real)
    (fixingDate : Date) : M bool :=
  let historicalFixingKnown := historicalFixingKnown self today in
  let latestNeededDate := latestNeededDate self fixingDate in
  if latestNeededDate <=? historicalFixingKnown then ret false
  else if today <? latestNeededDate then ret true
  else
    let first := firstDayOfMonth latestNeededDate in
    f <- read ts first ;;
    ret (match f with None => true | Some _ => false end).

(** The interpolation coefficient over the non-lagged period
    (lines 133-137 and 213-217). *)
Definition interpolationCoefficient (self : t)
    (curve : ZeroInflationTermStructure.t) (fixingDate : Date) : Real :=
  let observationDate :=
    date_plus fixingDate (ZeroInflationTermStructure.observationLag curve) in
  let p2 := inflationPeriod observationDate (frequency self) in
  let daysInPeriod := ofInt ((snd p2 + 1) - fst p2) in
  (ofInt (observationDate - fst p2) / daysInPeriod)%ql.

(** The historical branch of [fixing] (lines 121-143). *)
Definition historicalFixing (self : t) (ts : gmap Z Real)
    (fixingDate : Date) : M Real :=
  let p := inflationPeriod fixingDate (frequency self) in
  I1 <- readRequired ts (fst p) (name self) (fst p) ;;
  if interpolated self && (fst p <? fixingDate) then
    I2 <- readRequired ts (snd p + 1) (name self) (snd p + 1) ;;
    curve <- deref (zeroInflation self) ;;
    ret (I1 + (I2 - I1) * interpolationCoefficient self curve fixingDate)%ql
  else ret I1.

(** The forecast once the base fixing is known (lines 198-222). *)
Definition forecastValue (self : t) (curve : ZeroInflationTermStructure.t)
    (baseDate : Date) (baseFixing : Real) (fixingDate : Date) : Real :=
  let p := inflationPeriod fixingDate (frequency self) in
  let firstDateInPeriod := fst p in
  let Z1 := ZeroInflationTermStructure.zeroRate curve firstDateInPeriod
              (mkPeriod 0 Days) false in
  let t1 := inflationYearFraction (frequency self) (interpolated self)
              (ZeroInflationTermStructure.dayCounter curve)
              baseDate firstDateInPeriod in
  let I1 := (baseFixing * rpow (rone + Z1) t1)%ql in
  if interpolated self && (firstDateInPeriod <? fixingDate) then
    let firstDateInNextPeriod := snd p + 1 in
    let Z2 := ZeroInflationTermStructure.zeroRate curve firstDateInNextPeriod
                (mkPeriod 0 Days) false in
    let t2 := inflationYearFraction (frequency self) (interpolated self)
                (ZeroInflationTermStructure.dayCounter curve)
                baseDate firstDateInNextPeriod in
    let I2 := (baseFixing * rpow (rone + Z2) t2)%ql in
    (I1 + (I2 - I1) * interpolationCoefficient self curve fixingDate)%ql
  else I1.

(** [ZeroInflationIndex::forecastFixing], over the [fixing] it calls for
    the base date (lines 193-196, then [forecastValue]). *)
Definition forecastFixingWith (fixing : Date -> M Real) (self : t)
    (today : Date) (ts : gmap Z Real) (fixingDate : Date) : M Real :=
  curve <- deref (zeroInflation self) ;;
  let baseDate := ZeroInflationTermStructure.baseDate curve in
  baseNeedsForecast <- needsForecast self today ts baseDate ;;
  _ <- QL_REQUIRE (negb baseNeedsForecast)
         (InvalidBaseDate (name self) baseDate) ;;
  baseFixing <- fixing baseDate ;;
  ret (forecastValue self curve baseDate baseFixing fixingDate).

(** [ZeroInflationIndex::fixing] and [forecastFixing] call each other; the
    recursion is unfolded to a given depth. *)
Fixpoint fixing_fuel (fuel : nat) (self : t) (today : Date)
    (ts : gmap Z Real) (fixingDate : Date) : M Real :=
  match fuel with
  | O => raise Diverged
  | S fuel' =>
      forecast <- needsForecast self today ts fixingDate ;;
      if negb forecast then historicalFixing self ts fixingDate
      else forecastFixingWith (fixing_fuel fuel' self today ts)
             self today ts fixingDate
  end.

(** Depth two is all the mutual recursion ever uses: past the base-date
    guard of [forecastFixing], the base date is classified as historical
    (see [fixing_fuel_stable], [fixing_unfold] and [fixing_total]). *)
Definition fixing (self : t) (today : Date) (ts : gmap Z Real)
    (fixingDate : Date) : M Real :=
  fixing_fuel 2 self today ts fixingDate.

Definition forecastFixing (self : t) (today : Date) (ts : gmap Z Real)
    (fixingDate : Date) : M Real :=
  forecastFixingWith (fixing self today ts) self today ts fixingDate.

(** [ZeroInflationIndex::clone]. *)
Definition clone (self : t) (h : option ZeroInflationTermStructure.t) : t :=
  {| base := base self; zeroInflation := h |}.
End Engine.
End ZeroInflationIndex.

(** ** Year-on-year fixing engine *)

Module YoYInflationIndex.
Section Engine.
Context {RA : RealArith} {Cal : Calendar}.

Record t := {
  base : InflationIndex.t;
  ratio : bool;
  yoyInflation : option YoYInflationTermStructure.t
}.

Definition name (self : t) : string := InflationIndex.name (base self).
Definition interpolated (self : t) : bool := InflationIndex.interpolated (base self).
Definition frequency (self : t) : Frequency := InflationIndex.frequency (base self).
Definition availabilityLag (self : t) : Period :=
  InflationIndex.availabilityLag (base self).

(** [YoYInflationIndex::forecastFixing]. *)
Definition forecastFixing (self : t) (fixingDate : Date) : M Real :=
  let d :=
    if interpolated self then fixingDate
    else fst (inflationPeriod fixingDate (frequency self)) in
  curve <- deref (yoyInflation self) ;;
  ret (YoYInflationTermStructure.yoyRate curve d (mkPeriod 0 Days)).

(** The first date an interpolated, respectively flat, index must
    forecast (lines 255-261). *)
Definition flatMustForecastOn (self : t) (today : Date) : Date :=
  let todayMinusLag := date_minus today (availabilityLag self) in
  let lim := inflationPeriod todayMinusLag (frequency self) in
  let lastFix := fst lim - 1 in
  lastFix + 1.

Definition interpMustForecastOn (self : t) (today : Date) : Date :=
  let todayMinusLag := date_minus today (availabilityLag self) in
  let lim := inflationPeriod todayMinusLag (frequency self) in
  let lastFix := fst lim - 1 in
  date_minus (lastFix + 1) (Period_of_Frequency (frequency self)).

(** The historical branch of [fixing]: the four cases on [ratio] and
    [interpolated] (lines 274-350). *)
Definition historicalFixing (self : t) (ts : gmap Z Real)
    (fixingDate : Date) : M Real :=
  if ratio self then
    if interpolated self then
      let lim := inflationPeriod fixingDate (frequency self) in
      let fixMinus1Y := NullCalendar_advance fixingDate (mkPeriod (-1) Years) in
      let limBef := inflationPeriod fixMinus1Y (frequency self) in
      let dp := ofInt (snd lim + 1 - fst lim) in
      let dpBef := ofInt (snd limBef + 1 - fst limBef) in
      let dl := ofInt (fixingDate - fst lim) in
      let dlBef := ofInt (fixMinus1Y - fst limBef) in
      limFirstFix <- readRequired ts (fst lim) (name self) (fst lim) ;;
      limSecondFix <- readRequired ts (snd lim + 1) (name self) (snd lim + 1) ;;
      limBefFirstFix <- readRequired ts (fst limBef) (name self) (fst limBef) ;;
      limBefSecondFix <-
        readRequired ts (snd limBef + 1) (name self) (snd limBef + 1) ;;
      let linearNow :=
        (limFirstFix + (limSecondFix - limFirstFix) * dl / dp)%ql in
      let linearBef :=
        (limBefFirstFix + (limBefSecondFix - limBefFirstFix) * dlBef / dpBef)%ql in
      ret (linearNow / linearBef - rone)%ql
    else
      let lim := inflationPeriod fixingDate (frequency self) in
      pastFixing <- readRequired ts (fst lim) (name self) fixingDate ;;
      let previousDate := date_minus fixingDate (mkPeriod 1 Years) in
      let limBef := inflationPeriod previousDate (frequency self) in
      previousFixing <- readRequired ts (fst limBef) (name self) (fst limBef) ;;
      ret (pastFixing / previousFixing - rone)%ql
  else
    if interpolated self then
      let lim := inflationPeriod fixingDate (frequency self) in
      let dp := ofInt (snd lim + 1 - fst lim) in
      let dl := ofInt (fixingDate - fst lim) in
      limFirstFix <- readRequired ts (fst lim) (name self) (fst lim) ;;
      limSecondFix <- readRequired ts (snd lim + 1) (name self) (snd lim + 1) ;;
      ret (limFirstFix + (limSecondFix - limFirstFix) * dl / dp)%ql
    else
      let lim := inflationPeriod fixingDate (frequency self) in
      readRequired ts (fst lim) (name self) (fst lim).

(** [YoYInflationIndex::fixing]. *)
Definition fixing (self : t) (today : Date) (ts : gmap Z Real)
    (fixingDate : Date) : M Real :=
  if interpolated self && (interpMustForecastOn self today <=? fixingDate)
  then forecastFixing self fixingDate
  else if negb (interpolated self) && (flatMustForecastOn self today <=? fixingDate)
  then forecastFixing self fixingDate
  else historicalFixing self ts fixingDate.

(** [YoYInflationIndex::clone]. *)
Definition clone (self : t) (h : option YoYInflationTermStructure.t) : t :=
  {| base := base self; ratio := ratio self; yoyInflation := h |}.
End Engine.
End YoYInflationIndex.

(** ** Lagged-CPI interpolation *)

Module CPI.
(** The interpolation tag; [Unrecognized] stands for any value of the
    enumeration's underlying integer that is not one of the three tags. *)
Inductive InterpolationType :=
| AsIndex
| Flat
| Linear
| Unrecognized (tag : Z).

Section Lagged.
Context {RA : RealArith} {YF : YearFraction} {Cal : Calendar}.

(** [CPI::laggedFixing]. *)
Definition laggedFixing (index : ZeroInflationIndex.t) (today : Date)
    (ts : gmap Z Real) (date : Date) (observationLag : Period)
    (interpolationType : InterpolationType) : M Real :=
  let fixing := ZeroInflationIndex.fixing index today ts in
  let frequency := ZeroInflationIndex.frequency index in
  match interpolationType with
  | AsIndex => fixing (date_minus date observationLag)
  | Flat =>
      let fixingPeriod := inflationPeriod (date_minus date observationLag) frequency in
      fixing (fst fixingPeriod)
  | Linear =>
      let fixingPeriod := inflationPeriod (date_minus date observationLag) frequency in
      let interpolationPeriod := inflationPeriod date frequency in
      if date =? fst interpolationPeriod then fixing (fst fixingPeriod)
      else
        let oneDay := mkPeriod 1 Days in
        I0 <- fixing (fst fixingPeriod) ;;
        I1 <- fixing (date_plus (snd fixingPeriod) oneDay) ;;
        ret (I0 + (I1 - I0) * ofInt (date - fst interpolationPeriod) /
               ofInt (date_plus (snd interpolationPeriod) oneDay
                      - fst interpolationPeriod))%ql
  | Unrecognized tag => raise (UnsupportedInterpolation tag)
  end.

(** [detail::CPI::effectiveInterpolationType]. *)
Definition effectiveInterpolationType (index : ZeroInflationIndex.t)
    (type : InterpolationType) : InterpolationType :=
  match type with
  | AsIndex => if ZeroInflationIndex.interpolated index then Linear else Flat
  | _ => type
  end.
End Lagged.
End CPI.

(** ** A concrete calendar

    The engines are run on explicit dates over the proleptic Gregorian
    calendar: serial day numbers, day 1 being 1 January of year 1; a
    publication period is the calendar year, half-year, quarter or month
    containing the date, both ends inclusive. *)

Module Gregorian.

(** Modelled from the spec: the leap-year rule of the [Date] class. *)
Definition isLeap (y : Z) : bool :=
  (y mod 4 =? 0) && (negb (y mod 100 =? 0) || (y mod 400 =? 0)).

(** Modelled from the spec: the number of days before 1 January of [y]. *)
Definition yearOffset (y : Z) : Z :=
  365 * (y - 1) + (y - 1) / 4 - (y - 1) / 100 + (y - 1) / 400.

(** Modelled from the spec: the number of days of month [m]. *)
Definition monthLength (leap : bool) (m : Z) : Z :=
  if m =? 2 then (if leap then 29 else 28)
  else if m =? 4 then 30
  else if m =? 6 then 30
  else if m =? 9 then 30
  else if m =? 11 then 30
  else 31.

(** Modelled from the spec: the number of days of the year before the
    first of month [m]. *)
Definition monthOffset (leap : bool) (m : Z) : Z :=
  let l := if leap then 1 else 0 in
  if m <=? 1 then 0
  else if m <=? 2 then 31
  else if m <=? 3 then 59 + l
  else if m <=? 4 then 90 + l
  else if m <=? 5 then 120 + l
  else if m <=? 6 then 151 + l
  else if m <=? 7 then 181 + l
  else if m <=? 8 then 212 + l
  else if m <=? 9 then 243 + l
  else if m <=? 10 then 273 + l
  else if m <=? 11 then 304 + l
  else 334 + l.

(** Modelled from the spec: [Date(d, m, y)], the serial number of a day. *)
Definition mkDate (d m y : Z) : Z := yearOffset y + monthOffset (isLeap y) m + d.

(** Modelled from the spec: [Date::year]; an estimate from the mean year
    length, corrected by at most one. *)
Definition year (s : Z) : Z :=
  let y := 400 * (s - 1) / 146097 + 1 in
  if s <=? yearOffset y then y - 1
  else if yearOffset (y + 1) <? s then y + 1
  else y.

(** Modelled from the spec: [Date::dayOfYear]. *)
Definition dayOfYear (s : Z) : Z := s - yearOffset (year s).

(** Modelled from the spec: the month holding day [n] of a year. *)
Definition monthOfDay (leap : bool) (n : Z) : Z :=
  if n <=? monthOffset leap 2 then 1
  else if n <=? monthOffset leap 3 then 2
  else if n <=? monthOffset leap 4 then 3
  else if n <=? monthOffset leap 5 then 4
  else if n <=? monthOffset leap 6 then 5
  else if n <=? monthOffset leap 7 then 6
  else if n <=? monthOffset leap 8 then 7
  else if n <=? monthOffset leap 9 then 8
  else if n <=? monthOffset leap 10 then 9
  else if n <=? monthOffset leap 11 then 10
  else if n <=? monthOffset leap 12 then 11
  else 12.

(** Modelled from the spec: [Date::month]. *)
Definition month (s : Z) : Z := monthOfDay (isLeap (year s)) (dayOfYear s).

(** Modelled from the spec: [Date::dayOfMonth]. *)
Definition dayOfMonth (s : Z) : Z :=
  dayOfYear s - monthOffset (isLeap (year s)) (month s).

(** Modelled from the spec: [Date::endOfMonth]. *)
Definition endOfMonth (s : Z) : Z :=
  mkDate (monthLength (isLeap (year s)) (month s)) (month s) (year s).

(** Modelled from the spec: the first and last month of the publication
    period of cadence [f] holding month [m]. *)
Definition monthRange (f : Frequency) (m : Z) : Z * Z :=
  match f with
  | Annual => (1, 12)
  | Semiannual => if m <=? 6 then (1, 6) else (7, 12)
  | Quarterly =>
      if m <=? 3 then (1, 3) else if m <=? 6 then (4, 6)
      else if m <=? 9 then (7, 9) else (10, 12)
  | Monthly => (m, m)
  end.

(** Modelled from the spec: [inflationPeriod], the inclusive range of the
    publication period containing [d]. *)
Definition inflationPeriod (d : Z) (f : Frequency) : Z * Z :=
  let y := year d in
  let r := monthRange f (month d) in
  (mkDate 1 (fst r) y, endOfMonth (mkDate 1 (snd r) y)).

(** Modelled from the spec: [Date::advance]; month and year shifts keep
    the day of the month, clamped to the end of the target month. *)
Definition advance (d : Z) (n : Z) (u : TimeUnit) : Z :=
  match u with
  | Days => d + n
  | Weeks => d + 7 * n
  | Months =>
      let t := 12 * year d + (month d - 1) + n in
      let y' := t / 12 in
      let m' := t mod 12 + 1 in
      mkDate (Z.min (dayOfMonth d) (monthLength (isLeap y') m')) m' y'
  | Years =>
      let y' := year d + n in
      let day := dayOfMonth d in
      let day' := if (day =? 29) && (month d =? 2) && negb (isLeap y') then 28 else day in
      mkDate day' (month d) y'
  end.

(** Modelled from the spec: [Date(1, d.month(), d.year())]. *)
Definition firstDayOfMonth (d : Z) : Z := mkDate 1 (month d) (year d).

End Gregorian.

(** Modelled from the spec: the Gregorian calendar as the engines'
    calendar utilities. *)
Definition gregorian : Calendar := {|
  inflationPeriod := Gregorian.inflationPeriod;
  advance := Gregorian.advance;
  firstDayOfMonth := Gregorian.firstDayOfMonth
|}.

(** Modelled from the spec: ideal real numbers as the carrier of [Real],
    [std::pow] being the real power function. *)
Definition ideal_reals : RealArith := {|
  Real := R;
  Real_eq_dec := Req_dec_T;
  rone := 1%R;
  radd := Rplus;
  rsub := Rminus;
  rmul := Rmult;
  rdiv := Rdiv;
  rpow := Rpower;
  ofInt := IZR
|}.

(** Modelled from the spec: an actual/365 year fraction, standing for the
    day-count conventions of the curves. *)
Definition actual365 : @YearFraction ideal_reals :=
  @Build_YearFraction ideal_reals unit
    (fun _ _ _ d1 d2 => (IZR (d2 - d1) / 365)%R).

(** ** Sample market data

    An index family, curves and stores on the concrete calendar, on which
    the engines are run at explicit dates. *)

Section Samples.
Local Existing Instance gregorian.
Local Existing Instance ideal_reals.
Local Existing Instance actual365.

Definition sample_index (interpolated : bool) (frequency : Frequency)
    (availabilityLag : Period) : InflationIndex.t :=
  {| InflationIndex.familyName := "HICP";
     InflationIndex.regionName := "EU";
     InflationIndex.revised := false;
     InflationIndex.interpolated := interpolated;
     InflationIndex.frequency := frequency;
     InflationIndex.availabilityLag := availabilityLag;
     InflationIndex.currency := "EUR" |}.

(** A curve based on 1 January 2020 with a three-month observation lag
    and the same zero rate [z] at every date. *)
Definition sample_curve (z : R) : ZeroInflationTermStructure.t :=
  {| ZeroInflationTermStructure.baseDate := Gregorian.mkDate 1 1 2020;
     ZeroInflationTermStructure.observationLag := mkPeriod 3 Months;
     ZeroInflationTermStructure.zeroRate := fun _ _ _ => z;
     ZeroInflationTermStructure.dayCounter := tt |}.

Definition sample_zero (interpolated : bool) (frequency : Frequency)
    (availabilityLag : Period)
    (curve : option ZeroInflationTermStructure.t) : ZeroInflationIndex.t :=
  {| ZeroInflationIndex.base := sample_index interpolated frequency availabilityLag;
     ZeroInflationIndex.zeroInflation := curve |}.

Definition sample_yoy (interpolated ratio : bool) (frequency : Frequency)
    (availabilityLag : Period) : YoYInflationIndex.t :=
  {| YoYInflationIndex.base := sample_index interpolated frequency availabilityLag;
     YoYInflationIndex.ratio := ratio;
     YoYInflationIndex.yoyInflation := None |}.

(** The store left by a successful [addFixing]. *)
Definition stored (r : result (gmap Z R)) : gmap Z R :=
  match r with
  | Ok ts => ts
  | Fail _ => ∅
  end.

(** January 2020 published at 100 through [addFixing] on an empty store. *)
Definition january_store : gmap Z R :=
  stored (InflationIndex.addFixing (sample_index true Monthly (mkPeriod 0 Days))
            ∅ (Gregorian.mkDate 10 1 2020) 100%R false).

(** The first quarter of 2020 published at 100. *)
Definition quarter_store : gmap Z R :=
  stored (InflationIndex.addFixing (sample_index false Quarterly (mkPeriod 0 Days))
            ∅ (Gregorian.mkDate 10 1 2020) 100%R false).

(** Period-start entries: 110 and 112 for January and February 2020,
    100 and 101 for January and February 2019. *)
Definition level_store : gmap Z R :=
  <[Gregorian.mkDate 1 1 2020 := 110%R]>
    (<[Gregorian.mkDate 1 2 2020 := 112%R]>
       (<[Gregorian.mkDate 1 1 2019 := 100%R]>
          (<[Gregorian.mkDate 1 2 2019 := 101%R]> ∅))).
End Samples.

(** ** Further notions used by the properties *)

(** Two more facts about the calendar utilities: advancing by days is
    adding to the serial number, and the first day of a date's month never
    precedes the start of its publication period. *)
Class CalendarDayLaws `{Calendar} : Prop := {
  advance_days : forall d n, advance d n Days = d + n;
  month_start_in_period : forall d f,
    fst (inflationPeriod d f) <= firstDayOfMonth d
}.

(** A store is period-uniform when every day holds the entry of the start
    of its publication period: the shape [addFixing] gives it. *)
Definition periodUniform {RA : RealArith} {Cal : Calendar}
    (f : Frequency) (ts : gmap Z Real) : Prop :=
  forall d, ts !! d = ts !! fst (inflationPeriod d f).

(** * Properties of the engines *)

(** ** The lookup-logging computations *)

Lemma outcome_bind {A B} (m : M A) (k : A -> M B) :
  outcome (bind m k) =
    match outcome m with
    | Ok a => outcome (k a)
    | Fail e => Fail e
    end.
Proof.
  destruct m as [t [a | e]]; cbn; [|reflexivity].
  destruct (k a); reflexivity.
Qed.

Lemma keys_bind {A B} (m : M A) (k : A -> M B) :
  keys (bind m k) =
    keys m ++ match outcome m with
              | Ok a => keys (k a)
              | Fail _ => []
              end.
Proof.
  destruct m as [t [a | e]]; cbn.
  - destruct (k a); reflexivity.
  - symmetry. apply app_nil_r.
Qed.

Lemma bind_ret_l {A B} (a : A) (k : A -> M B) : bind (ret a) k = k a.
Proof. unfold bind, ret. destruct (k a); reflexivity. Qed.

Lemma bind_ret_r {A} (m : M A) : bind m ret = m.
Proof.
  destruct m as [t [a | e]]; cbn; [|reflexivity]. rewrite app_nil_r. reflexivity.
Qed.

Lemma bind_raise {A B} (e : Error) (k : A -> M B) : bind (raise e) k = raise e.
Proof. reflexivity. Qed.

Lemma bind_ext {A B} (m : M A) (k1 k2 : A -> M B) :
  (forall a, k1 a = k2 a) -> bind m k1 = bind m k2.
Proof.
  intros E. destruct m as [t [a | e]]; cbn; [|reflexivity]. rewrite E. reflexivity.
Qed.

Lemma outcome_bind_ok {A B} (m : M A) (k : A -> M B) a :
  outcome m = Ok a -> outcome (bind m k) = outcome (k a).
Proof. intros E. rewrite outcome_bind, E. reflexivity. Qed.

Lemma outcome_bind_fail {A B} (m : M A) (k : A -> M B) e :
  outcome m = Fail e -> outcome (bind m k) = Fail e.
Proof. intros E. rewrite outcome_bind, E. reflexivity. Qed.

Section SeriesFacts.
Context {RA : RealArith}.

Lemma outcome_readRequired (ts : gmap Z Real) key index reported :
  outcome (readRequired ts key index reported) =
    match ts !! key with
    | Some v => Ok v
    | None => Fail (MissingFixing index reported)
    end.
Proof. unfold readRequired, read. cbn. destruct (ts !! key); reflexivity. Qed.

Lemma keys_readRequired (ts : gmap Z Real) key index reported :
  keys (readRequired ts key index reported) = [key].
Proof. unfold readRequired, read. cbn. destruct (ts !! key); reflexivity. Qed.

Lemma reportsKey_ret {A} (ts : gmap Z Real) index (a : A) :
  reportsKey ts index (ret a).
Proof. intros i k. discriminate. Qed.

Lemma reportsKey_readRequired {A} (ts : gmap Z Real) index key (k : Real -> M A) :
  (forall v, reportsKey ts index (k v)) ->
  reportsKey ts index (bind (readRequired ts key index key) k).
Proof.
  intros Hk i j. rewrite outcome_bind, keys_bind, outcome_readRequired, keys_readRequired.
  destruct (ts !! key) as [v|] eqn:E.
  - intros Hf. destruct (Hk v i j Hf) as (Hi & Hin & Hj).
    repeat split; [exact Hi | right; exact Hin | exact Hj].
  - intros [= <- <-]. repeat split; [left; reflexivity | exact E].
Qed.

End SeriesFacts.

(** ** The zero engine: classification and recursion depth *)

Section ZeroFacts.
Context {RA : RealArith} {YF : YearFraction} {Cal : Calendar}.
Import ZeroInflationIndex.

Lemma needsForecast_returns self today (ts : gmap Z Real) d :
  exists b, outcome (needsForecast self today ts d) = Ok b.
Proof.
  unfold needsForecast.
  destruct (_ <=? _); [eexists; reflexivity|].
  destruct (_ <? _); [eexists; reflexivity|].
  cbn. eexists; reflexivity.
Qed.

Lemma keys_needsForecast self today (ts : gmap Z Real) d :
  keys (needsForecast self today ts d) = []
  \/ keys (needsForecast self today ts d)
       = [firstDayOfMonth (latestNeededDate self d)].
Proof.
  unfold needsForecast.
  destruct (_ <=? _); [left; reflexivity|].
  destruct (_ <? _); [left; reflexivity|].
  right. reflexivity.
Qed.

(** Past the base-date guard, [forecastFixing] only ever calls [fixing] on
    a date that is classified as historical. *)
Lemma forecastFixingWith_ext (g1 g2 : Date -> M Real) self today ts d :
  (forall c, zeroInflation self = Some c ->
     outcome (needsForecast self today ts (ZeroInflationTermStructure.baseDate c))
       = Ok false ->
     g1 (ZeroInflationTermStructure.baseDate c)
       = g2 (ZeroInflationTermStructure.baseDate c)) ->
  forecastFixingWith g1 self today ts d = forecastFixingWith g2 self today ts d.
Proof.
  intros Hg. unfold forecastFixingWith.
  destruct (zeroInflation self) as [c|] eqn:Ec; [|reflexivity].
  specialize (Hg c eq_refl). cbn [deref]. rewrite !bind_ret_l.
  destruct (needsForecast self today ts (ZeroInflationTermStructure.baseDate c))
    as [t [[|]|e]] eqn:En; cbn [outcome snd] in Hg; try reflexivity.
  cbn [bind negb QL_REQUIRE]. rewrite !bind_ret_l, (Hg eq_refl). reflexivity.
Qed.

Lemma fixing_fuel_S fuel self today ts d :
  fixing_fuel (S fuel) self today ts d
    = bind (needsForecast self today ts d)
        (fun forecast =>
           if negb forecast then historicalFixing self ts d
           else forecastFixingWith (fixing_fuel fuel self today ts)
                  self today ts d).
Proof. reflexivity. Qed.

Lemma fixing_fuel_historical fuel self today ts d :
  outcome (needsForecast self today ts d) = Ok false ->
  fixing_fuel (S fuel) self today ts d
    = bind (needsForecast self today ts d)
        (fun _ => historicalFixing self ts d).
Proof.
  intros E. rewrite fixing_fuel_S.
  destruct (needsForecast self today ts d) as [t [b|e]]; cbn in *; [|discriminate].
  injection E as ->. reflexivity.
Qed.

(** The mutual recursion of [fixing] and [forecastFixing] stops at depth
    two: more fuel never changes the result. *)
Lemma fixing_fuel_stable fuel self today ts d :
  fixing_fuel (S (S fuel)) self today ts d = fixing self today ts d.
Proof.
  unfold fixing. rewrite (fixing_fuel_S (S fuel)), (fixing_fuel_S 1).
  apply bind_ext. intros forecast.
  destruct (negb forecast); [reflexivity|].
  apply forecastFixingWith_ext. intros c _ En.
  rewrite !(fixing_fuel_historical _ _ _ _ _ En). reflexivity.
Qed.

Lemma forecastFixing_fuel self today ts d :
  forecastFixing self today ts d
    = forecastFixingWith (fixing_fuel 1 self today ts) self today ts d.
Proof.
  unfold forecastFixing. apply forecastFixingWith_ext. intros c _ En.
  unfold fixing. rewrite !(fixing_fuel_historical _ _ _ _ _ En). reflexivity.
Qed.

Lemma fixing_unfold self today ts d :
  fixing self today ts d
    = bind (needsForecast self today ts d)
        (fun forecast =>
           if negb forecast then historicalFixing self ts d
           else forecastFixing self today ts d).
Proof.
  unfold fixing. rewrite (fixing_fuel_S 1).
  apply bind_ext. intros forecast.
  destruct (negb forecast); [reflexivity|].
  symmetry. apply forecastFixing_fuel.
Qed.

Lemma outcome_fixing_historical self today ts d :
  outcome (needsForecast self today ts d) = Ok false ->
  outcome (fixing self today ts d) = outcome (historicalFixing self ts d).
Proof.
  intros E. rewrite fixing_unfold, (outcome_bind_ok _ _ _ E). reflexivity.
Qed.

Lemma outcome_fixing_forecast self today ts d :
  outcome (needsForecast self today ts d) = Ok true ->
  outcome (fixing self today ts d) = outcome (forecastFixing self today ts d).
Proof.
  intros E. rewrite fixing_unfold, (outcome_bind_ok _ _ _ E). reflexivity.
Qed.

Lemma zero_historicalFixing_not_diverged self ts d :
  outcome (historicalFixing self ts d) <> Fail Diverged.
Proof.
  unfold historicalFixing.
  rewrite outcome_bind, outcome_readRequired.
  destruct (ts !! _); [|discriminate].
  destruct (_ && _); [|discriminate].
  rewrite outcome_bind, outcome_readRequired.
  destruct (ts !! _); [|discriminate].
  destruct (zeroInflation self); discriminate.
Qed.

(** [fixing] always returns: a value or one of the core's errors, never
    an exhausted recursion. *)
Lemma fixing_total self today ts d :
  outcome (fixing self today ts d) <> Fail Diverged.
Proof.
  destruct (needsForecast_returns self today ts d) as [[|] E].
  - rewrite (outcome_fixing_forecast _ _ _ _ E).
    unfold forecastFixing, forecastFixingWith.
    rewrite outcome_bind. destruct (zeroInflation self) as [c|]; [|discriminate].
    cbn [deref ret outcome snd].
    destruct (needsForecast_returns self today ts (ZeroInflationTermStructure.baseDate c))
      as [[|] Eb]; rewrite outcome_bind, Eb; [discriminate|].
    cbn [negb QL_REQUIRE]. rewrite outcome_bind. cbn [ret outcome snd].
    rewrite outcome_bind, (outcome_fixing_historical _ _ _ _ Eb).
    pose proof (zero_historicalFixing_not_diverged self ts (ZeroInflationTermStructure.baseDate c)) as Hh.
    destruct (outcome (historicalFixing self ts _)) as [b|e]; [discriminate | congruence].
  - rewrite (outcome_fixing_historical _ _ _ _ E).
    apply zero_historicalFixing_not_diverged.
Qed.
End ZeroFacts.

(** ** Classification of a fixing date by the zero engine *)

Section Classification.
Context {RA : RealArith} {YF : YearFraction} {Cal : Calendar} {Laws : CalendarLaws}.
Import ZeroInflationIndex.

Lemma Period_of_Frequency_nonneg f : 0 <= plength (Period_of_Frequency f).
Proof. destruct f; cbn; lia. Qed.

Lemma latestNeededDate_ge self d : d <= latestNeededDate self d.
Proof.
  unfold latestNeededDate.
  destruct (interpolated self); [|lia].
  destruct (_ <? _); [|lia].
  apply advance_forward, Period_of_Frequency_nonneg.
Qed.

Lemma historicalFixingKnown_lt_today self today :
  0 <= plength (availabilityLag self) ->
  historicalFixingKnown self today < today.
Proof.
  intros Hlag. unfold historicalFixingKnown, date_minus.
  pose proof (advance_backward today (- plength (availabilityLag self))
                (punits (availabilityLag self)) ltac:(lia)).
  pose proof (period_contains
                (advance today (- plength (availabilityLag self))
                   (punits (availabilityLag self))) (frequency self)).
  lia.
Qed.

(** C1, as amended.  With an availability lag of non-negative length:
    [needsForecast] is false whenever the latest needed date (the fixing
    date itself, or one publication period later for an interpolated index
    queried strictly inside a period) is not after [historicalFixingKnown],
    in particular for every date strictly before [historicalFixingKnown]
    of a non-interpolated index; and it is true for every date strictly
    after [today]. *)
Theorem needsForecast_classification self today (ts : gmap Z Real) d :
  0 <= plength (availabilityLag self) ->
  (latestNeededDate self d <= historicalFixingKnown self today ->
   outcome (needsForecast self today ts d) = Ok false)
  /\ (interpolated self = false -> d < historicalFixingKnown self today ->
      outcome (needsForecast self today ts d) = Ok false)
  /\ (today < d -> outcome (needsForecast self today ts d) = Ok true).
Proof.
  intros Hlag.
  assert (Hfirst : latestNeededDate self d <= historicalFixingKnown self today ->
                   outcome (needsForecast self today ts d) = Ok false).
  { intros Hle. unfold needsForecast.
    destruct (Z.leb_spec (latestNeededDate self d) (historicalFixingKnown self today));
      [reflexivity | lia]. }
  split; [exact Hfirst|]. split.
  - intros Hflat Hlt. apply Hfirst. unfold latestNeededDate. rewrite Hflat. lia.
  - intros Hlate.
    pose proof (latestNeededDate_ge self d) as Hge.
    pose proof (historicalFixingKnown_lt_today self today Hlag) as Hknown.
    unfold needsForecast.
    destruct (Z.leb_spec (latestNeededDate self d) (historicalFixingKnown self today));
      [lia|].
    destruct (Z.ltb_spec today (latestNeededDate self d)); [reflexivity | lia].
Qed.
End Classification.

(** ** Historical fixings of the zero engine *)

Section ZeroHistorical.
Context {RA : RealArith} {YF : YearFraction} {Cal : Calendar}.
Import ZeroInflationIndex.

(** C2.  For an interpolated index, a date classified as historical and
    strictly after the start of its period [p]: the fixing is
    [I1 + (I2 - I1) * w], with [I1], [I2] the stored fixings at [p.start]
    and [p.end + 1] and [w] the share of the non-lagged period [p2]
    (the one containing [fixingDate + observationLag]) elapsed at
    [fixingDate + observationLag]. *)
Theorem fixing_interpolated_historical self today (ts : gmap Z Real)
    fixingDate curve I1 I2 :
  let p := inflationPeriod fixingDate (frequency self) in
  let observationDate :=
    date_plus fixingDate (ZeroInflationTermStructure.observationLag curve) in
  let p2 := inflationPeriod observationDate (frequency self) in
  let w := (ofInt (observationDate - fst p2) / ofInt (snd p2 + 1 - fst p2))%ql in
  interpolated self = true ->
  zeroInflation self = Some curve ->
  outcome (needsForecast self today ts fixingDate) = Ok false ->
  fst p < fixingDate ->
  ts !! fst p = Some I1 ->
  ts !! (snd p + 1) = Some I2 ->
  outcome (fixing self today ts fixingDate) = Ok (I1 + (I2 - I1) * w)%ql.
Proof.
  intros p observationDate p2 w Hi Hc Hn Hlt H1 H2.
  rewrite (outcome_fixing_historical _ _ _ _ Hn).
  unfold historicalFixing. fold p.
  rewrite outcome_bind, outcome_readRequired, H1, Hi.
  destruct (Z.ltb_spec (fst p) fixingDate); [|lia]. cbn [andb].
  rewrite outcome_bind, outcome_readRequired, H2, Hc.
  reflexivity.
Qed.


(** The flat case: without interpolation, or at the very start of the
    period, the historical fixing is the entry stored at the period start. *)
Lemma zero_historicalFixing_flat self (ts : gmap Z Real) d v :
  interpolated self = false \/ d = fst (inflationPeriod d (frequency self)) ->
  ts !! fst (inflationPeriod d (frequency self)) = Some v ->
  historicalFixing self ts d
    = ([fst (inflationPeriod d (frequency self))], Ok v).
Proof.
  intros Hflat Hv. unfold historicalFixing, readRequired, read.
  cbn [bind]. rewrite Hv. cbn [ret app].
  assert (E : interpolated self
              && (fst (inflationPeriod d (frequency self)) <? d) = false).
  { destruct Hflat as [-> | Hd]; [reflexivity|].
    rewrite andb_false_iff. right. apply Z.ltb_ge. lia. }
  rewrite E. reflexivity.
Qed.
End ZeroHistorical.

(** ** Forecast fixings of the zero engine *)

Section ZeroForecast.
Context {RA : RealArith} {YF : YearFraction} {Cal : Calendar}.
Import ZeroInflationIndex.

Lemma zero_historicalFixing_errors self (ts : gmap Z Real) d e :
  zeroInflation self <> None ->
  outcome (historicalFixing self ts d) = Fail e ->
  exists k, e = MissingFixing (name self) k.
Proof.
  intros Hc. unfold historicalFixing.
  rewrite outcome_bind, outcome_readRequired.
  destruct (ts !! _).
  - destruct (_ && _); [|discriminate].
    rewrite outcome_bind, outcome_readRequired.
    destruct (ts !! _).
    + destruct (zeroInflation self); [discriminate | contradiction].
    + intros [= <-]. eexists; reflexivity.
  - intros [= <-]. eexists; reflexivity.
Qed.

(** [forecastFixing]: the base-date guard, then the base fixing, then
    [forecastValue]. *)
Lemma outcome_forecastFixing self today (ts : gmap Z Real) d curve :
  zeroInflation self = Some curve ->
  let baseDate := ZeroInflationTermStructure.baseDate curve in
  outcome (forecastFixing self today ts d) =
    match outcome (needsForecast self today ts baseDate) with
    | Ok true => Fail (InvalidBaseDate (name self) baseDate)
    | Ok false =>
        match outcome (fixing self today ts baseDate) with
        | Ok baseFixing => Ok (forecastValue self curve baseDate baseFixing d)
        | Fail e => Fail e
        end
    | Fail e => Fail e
    end.
Proof.
  intros Hc baseDate. unfold forecastFixing, forecastFixingWith.
  rewrite Hc. cbn [deref]. rewrite !bind_ret_l. fold baseDate.
  rewrite outcome_bind.
  destruct (outcome (needsForecast self today ts baseDate)) as [[|]|e] eqn:En;
    [reflexivity | | reflexivity].
  cbn [negb QL_REQUIRE]. rewrite !bind_ret_l, outcome_bind.
  destruct (outcome (fixing self today ts baseDate)) as [b|e]; reflexivity.
Qed.

(** C5.  For a non-interpolated index whose curve returns the constant
    zero rate [z] at every date, [forecastFixing d] is
    [baseFixing * (1 + z)^t1], where [baseFixing] is [fixing baseDate] and
    [t1] the inflation year fraction from the curve's base date to the
    start of the period containing [d]. *)
Theorem forecastFixing_constant_rate self today (ts : gmap Z Real) d curve z
    baseFixing :
  let baseDate := ZeroInflationTermStructure.baseDate curve in
  let t1 :=
    inflationYearFraction (frequency self) false
      (ZeroInflationTermStructure.dayCounter curve) baseDate
      (fst (inflationPeriod d (frequency self))) in
  interpolated self = false ->
  zeroInflation self = Some curve ->
  (forall date lag extrapolate,
     ZeroInflationTermStructure.zeroRate curve date lag extrapolate = z) ->
  outcome (fixing self today ts baseDate) = Ok baseFixing ->
  outcome (forecastFixing self today ts d) = Ok (baseFixing * rpow (rone + z) t1)%ql.
Proof.
  intros baseDate t1 Hflat Hc Hz Hb.
  rewrite (outcome_forecastFixing _ _ _ _ _ Hc). fold baseDate.
  destruct (needsForecast_returns self today ts baseDate) as [[|] En]; rewrite En.
  - (* the base fixing itself would have failed *)
    rewrite (outcome_fixing_forecast _ _ _ _ En),
      (outcome_forecastFixing _ _ _ _ _ Hc) in Hb.
    fold baseDate in Hb. rewrite En in Hb. discriminate.
  - rewrite Hb. unfold forecastValue.
    rewrite Hflat, Hz. reflexivity.
Qed.

(** C6.  With a curve bound to the index, [forecastFixing] fails with
    InvalidBaseDate exactly when [needsForecast] holds of the curve's base
    date, and the error reports that base date; when the base date is
    classified as historical it goes on with [fixing baseDate] as the base
    fixing. *)
Theorem forecastFixing_base_date self today (ts : gmap Z Real) d curve :
  let baseDate := ZeroInflationTermStructure.baseDate curve in
  zeroInflation self = Some curve ->
  ((exists index date,
      outcome (forecastFixing self today ts d) = Fail (InvalidBaseDate index date))
   <-> outcome (needsForecast self today ts baseDate) = Ok true)
  /\ (outcome (needsForecast self today ts baseDate) = Ok true ->
      outcome (forecastFixing self today ts d)
        = Fail (InvalidBaseDate (name self) baseDate))
  /\ (outcome (needsForecast self today ts baseDate) = Ok false ->
      outcome (forecastFixing self today ts d) =
        match outcome (fixing self today ts baseDate) with
        | Ok baseFixing => Ok (forecastValue self curve baseDate baseFixing d)
        | Fail e => Fail e
        end).
Proof.
  intros baseDate Hc.
  pose proof (outcome_forecastFixing self today ts d curve Hc) as Hf.
  fold baseDate in Hf. cbv zeta in Hf.
  assert (Hguard : outcome (needsForecast self today ts baseDate) = Ok true ->
                   outcome (forecastFixing self today ts d)
                     = Fail (InvalidBaseDate (name self) baseDate)).
  { intros En. rewrite Hf, En. reflexivity. }
  split; [split|split; [exact Hguard|]].
  - intros (index & date & Hfail). rewrite Hf in Hfail.
    destruct (needsForecast_returns self today ts baseDate) as [[|] En];
      [exact En|].
    rewrite En in Hfail.
    rewrite (outcome_fixing_historical _ _ _ _ En) in Hfail.
    destruct (outcome (historicalFixing self ts baseDate)) as [b|e] eqn:Eh;
      [discriminate|].
    destruct (zero_historicalFixing_errors self ts baseDate e) as [k Hk];
      [rewrite Hc; discriminate | exact Eh |].
    subst e. discriminate.
  - intros En. exists (name self), baseDate. apply Hguard, En.
  - intros En. rewrite Hf, En. reflexivity.
Qed.
End ZeroForecast.

(** ** Historical fixings of the year-on-year engine *)

Section YoYHistorical.
Context {RA : RealArith} {Cal : Calendar}.
Import YoYInflationIndex.

Lemma yoy_fixing_historical self today (ts : gmap Z Real) d :
  (if interpolated self then d < interpMustForecastOn self today
   else d < flatMustForecastOn self today) ->
  fixing self today ts d = historicalFixing self ts d.
Proof.
  unfold fixing. destruct (interpolated self); cbn [andb negb]; intros Hd.
  - destruct (Z.leb_spec (interpMustForecastOn self today) d); [lia | reflexivity].
  - destruct (Z.leb_spec (flatMustForecastOn self today) d); [lia | reflexivity].
Qed.

Lemma yoy_historicalFixing_flat self (ts : gmap Z Real) d :
  interpolated self = false -> ratio self = false ->
  historicalFixing self ts d =
    readRequired ts (fst (inflationPeriod d (frequency self))) (name self)
      (fst (inflationPeriod d (frequency self))).
Proof. intros Hi Hr. unfold historicalFixing. rewrite Hi, Hr. reflexivity. Qed.

(** The ratio, non-interpolated branch reports the date that was asked
    for, not the key it looked up. *)
Lemma yoy_historicalFixing_ratio_flat_missing self (ts : gmap Z Real) d :
  ratio self = true -> interpolated self = false ->
  ts !! fst (inflationPeriod d (frequency self)) = None ->
  historicalFixing self ts d
    = ([fst (inflationPeriod d (frequency self))],
       Fail (MissingFixing (name self) d)).
Proof.
  intros Hr Hi Hts. unfold historicalFixing, readRequired, read.
  rewrite Hr, Hi. cbn [bind]. rewrite Hts. reflexivity.
Qed.

(** Every other branch reports the key whose entry is missing. *)
Lemma yoy_historicalFixing_reportsKey self (ts : gmap Z Real) d :
  ratio self = false \/ interpolated self = true ->
  reportsKey ts (name self) (historicalFixing self ts d).
Proof.
  intros Hcase. unfold historicalFixing.
  destruct (ratio self), (interpolated self);
    try (destruct Hcase; discriminate); cbv zeta;
    repeat (apply reportsKey_readRequired; intros ?); try apply reportsKey_ret.
  rewrite <- (bind_ret_r (readRequired ts _ _ _)).
  apply reportsKey_readRequired. intros v. apply reportsKey_ret.
Qed.
End YoYHistorical.

(** ** Flat fixings *)

Section Flat.
Context {RA : RealArith} {YF : YearFraction} {Cal : Calendar} {Laws : CalendarLaws}.

(** C8, as amended.  For a zero index with [interpolated = false], and for
    a year-on-year index with [interpolated = false] and [ratio = false]:
    the fixing of every date of a period that is classified as historical
    is the single value stored at the start of that period.  (A
    year-on-year index with [ratio = true] returns the ratio of that value
    to the one stored a year earlier, minus one.) *)
Theorem flat_fixing_is_period_start_value
    (zero : ZeroInflationIndex.t) (yoy : YoYInflationIndex.t)
    today (ts : gmap Z Real) d d' v :
  (ZeroInflationIndex.interpolated zero = false ->
   let p := inflationPeriod d (ZeroInflationIndex.frequency zero) in
   fst p <= d' <= snd p ->
   ts !! fst p = Some v ->
   outcome (ZeroInflationIndex.needsForecast zero today ts d') = Ok false ->
   outcome (ZeroInflationIndex.fixing zero today ts d') = Ok v)
  /\ (YoYInflationIndex.interpolated yoy = false ->
      YoYInflationIndex.ratio yoy = false ->
      let p := inflationPeriod d (YoYInflationIndex.frequency yoy) in
      fst p <= d' <= snd p ->
      ts !! fst p = Some v ->
      d' < YoYInflationIndex.flatMustForecastOn yoy today ->
      outcome (YoYInflationIndex.fixing yoy today ts d') = Ok v).
Proof.
  split.
  - intros Hflat p Hin Hv Hn.
    rewrite (outcome_fixing_historical _ _ _ _ Hn).
    rewrite (zero_historicalFixing_flat zero ts d' v); [reflexivity | left; exact Hflat |].
    rewrite (period_canonical d d' _ Hin). exact Hv.
  - intros Hflat Hratio p Hin Hv Hhist.
    rewrite yoy_fixing_historical by (rewrite Hflat; exact Hhist).
    rewrite yoy_historicalFixing_flat by assumption.
    rewrite outcome_readRequired, (period_canonical d d' _ Hin).
    fold p. rewrite Hv. reflexivity.
Qed.
End Flat.

(** ** Lagged-CPI interpolation *)

Section LaggedCPI.
Context {RA : RealArith} {YF : YearFraction} {Cal : Calendar}.
Import CPI.

(** C9.  When [date] is the start of the interpolation period containing
    it, the [Flat] and [Linear] lagged fixings coincide, both being the
    index fixing at the start of the period containing
    [date - observationLag]; and an unrecognized interpolation tag fails
    with UnsupportedInterpolation. *)
Theorem laggedFixing_flat_linear index today (ts : gmap Z Real) date
    observationLag :
  date = fst (inflationPeriod date (ZeroInflationIndex.frequency index)) ->
  laggedFixing index today ts date observationLag Flat
    = laggedFixing index today ts date observationLag Linear
  /\ laggedFixing index today ts date observationLag Flat
     = ZeroInflationIndex.fixing index today ts
         (fst (inflationPeriod (date_minus date observationLag)
                 (ZeroInflationIndex.frequency index)))
  /\ forall tag,
       outcome (laggedFixing index today ts date observationLag (Unrecognized tag))
         = Fail (UnsupportedInterpolation tag).
Proof.
  intros Hstart. unfold laggedFixing. cbv zeta.
  rewrite <- Hstart, Z.eqb_refl. repeat split.
Qed.
End LaggedCPI.

(** ** The year-on-year engine at a period start *)

Section PeriodStart.
Context {RA : RealArith} {YF : YearFraction} {Cal : Calendar} {Laws : CalendarLaws}.

Lemma zero_keys_at_period_start (zero : ZeroInflationIndex.t) today
    (ts : gmap Z Real) d a :
  d = fst (inflationPeriod d (ZeroInflationIndex.frequency zero)) ->
  ts !! d = Some a ->
  outcome (ZeroInflationIndex.needsForecast zero today ts d) = Ok false ->
  forall k, In k (keys (ZeroInflationIndex.fixing zero today ts d)) -> k <= d.
Proof.
  intros Hstart Ha Hn k.
  rewrite fixing_unfold, keys_bind, Hn. cbn [negb].
  rewrite (zero_historicalFixing_flat zero ts d a);
    [| right; exact Hstart | rewrite <- Hstart; exact Ha].
  cbn [keys fst]. rewrite <- Hstart, in_app_iff.
  intros [Hk | [<- | []]]; [|lia].
  destruct (keys_needsForecast zero today ts d) as [E | E];
    rewrite E in Hk; [destruct Hk|].
  destruct Hk as [<- | []].
  unfold ZeroInflationIndex.latestNeededDate.
  destruct (ZeroInflationIndex.interpolated zero); [|apply month_start_le].
  rewrite <- Hstart, Z.ltb_irrefl. apply month_start_le.
Qed.

(** C10.  For an interpolated year-on-year index on its historical branch,
    a fixing date that is the exact start of its period [lim] still needs
    the fixing at [lim.end + 1]: without it the call fails with
    MissingFixing for that date, and with it the result is the
    interpolation expression with [dl = 0].  The zero engine at the same
    date does not read [lim.end + 1] at all and returns the period-start
    fixing. *)
Theorem yoy_interpolated_at_period_start
    (yoy : YoYInflationIndex.t) (zero : ZeroInflationIndex.t)
    today (ts : gmap Z Real) d a :
  let lim := inflationPeriod d (YoYInflationIndex.frequency yoy) in
  let fixMinus1Y := NullCalendar_advance d (mkPeriod (-1) Years) in
  let limBef := inflationPeriod fixMinus1Y (YoYInflationIndex.frequency yoy) in
  let dp := ofInt (snd lim + 1 - fst lim) in
  let linearNow b := (a + (b - a) * ofInt 0 / dp)%ql in
  YoYInflationIndex.interpolated yoy = true ->
  d < YoYInflationIndex.interpMustForecastOn yoy today ->
  d = fst lim ->
  ts !! d = Some a ->
  (ts !! (snd lim + 1) = None ->
   outcome (YoYInflationIndex.fixing yoy today ts d)
     = Fail (MissingFixing (YoYInflationIndex.name yoy) (snd lim + 1)))
  /\ (forall b, ts !! (snd lim + 1) = Some b ->
      YoYInflationIndex.ratio yoy = false ->
      outcome (YoYInflationIndex.fixing yoy today ts d) = Ok (linearNow b))
  /\ (forall b c e, ts !! (snd lim + 1) = Some b ->
      YoYInflationIndex.ratio yoy = true ->
      ts !! fst limBef = Some c ->
      ts !! (snd limBef + 1) = Some e ->
      outcome (YoYInflationIndex.fixing yoy today ts d)
        = Ok (linearNow b
              / (c + (e - c) * ofInt (fixMinus1Y - fst limBef)
                     / ofInt (snd limBef + 1 - fst limBef))
              - rone)%ql)
  /\ (d = fst (inflationPeriod d (ZeroInflationIndex.frequency zero)) ->
      outcome (ZeroInflationIndex.needsForecast zero today ts d) = Ok false ->
      outcome (ZeroInflationIndex.fixing zero today ts d) = Ok a
      /\ ~ In (snd (inflationPeriod d (ZeroInflationIndex.frequency zero)) + 1)
             (keys (ZeroInflationIndex.fixing zero today ts d))).
Proof.
  intros lim fixMinus1Y limBef dp linearNow Hi Hhist Hstart Ha.
  assert (Hfix : YoYInflationIndex.fixing yoy today ts d
                 = YoYInflationIndex.historicalFixing yoy ts d)
    by (apply yoy_fixing_historical; rewrite Hi; exact Hhist).
  assert (Ha' : ts !! fst lim = Some a) by (rewrite <- Hstart; exact Ha).
  assert (Hdl : d - fst lim = 0) by lia.
  rewrite Hfix. unfold YoYInflationIndex.historicalFixing. rewrite Hi.
  fold lim. fold fixMinus1Y. fold limBef.
  split; [|split; [|split; [|intros Hzstart Hzhist; split]]].
  - intros Hnone.
    destruct (YoYInflationIndex.ratio yoy);
      rewrite outcome_bind, outcome_readRequired, Ha';
      rewrite outcome_bind, outcome_readRequired, Hnone; reflexivity.
  - intros b Hb Hr. rewrite Hr.
    rewrite outcome_bind, outcome_readRequired, Ha'.
    rewrite outcome_bind, outcome_readRequired, Hb. rewrite Hdl. reflexivity.
  - intros b c e Hb Hr Hc He. rewrite Hr.
    rewrite outcome_bind, outcome_readRequired, Ha'.
    rewrite outcome_bind, outcome_readRequired, Hb.
    rewrite outcome_bind, outcome_readRequired, Hc.
    rewrite outcome_bind, outcome_readRequired, He. rewrite Hdl. reflexivity.
  - rewrite (outcome_fixing_historical _ _ _ _ Hzhist).
    rewrite (zero_historicalFixing_flat zero ts d a);
      [reflexivity | right; exact Hzstart | rewrite <- Hzstart; exact Ha].
  - intros Hin.
    pose proof (zero_keys_at_period_start zero today ts d a Hzstart Ha Hzhist _ Hin).
    pose proof (period_contains d (ZeroInflationIndex.frequency zero)). lia.
Qed.
End PeriodStart.

(** ** Which keys of the series the engines read *)

Section LookupKeys.
Context {RA : RealArith} {YF : YearFraction} {Cal : Calendar} {Laws : CalendarLaws}.

Lemma Forall_keys_bind {A B} (P : Z -> Prop) (m : M A) (k : A -> M B) :
  Forall P (keys m) -> (forall a, Forall P (keys (k a))) ->
  Forall P (keys (bind m k)).
Proof.
  intros Hm Hk. rewrite keys_bind. apply Forall_app. split; [exact Hm|].
  destruct (outcome m); [apply Hk | constructor].
Qed.

Lemma Forall_keys_readRequired (P : Z -> Prop) (ts : gmap Z Real) key index reported :
  P key -> Forall P (keys (readRequired ts key index reported)).
Proof. intros Hp. rewrite keys_readRequired. repeat constructor. exact Hp. Qed.

Lemma Forall_keys_deref {A} (P : Z -> Prop) (h : option A) :
  Forall P (keys (deref h)).
Proof. destruct h; constructor. Qed.

Lemma period_start_isPeriodStart d f : isPeriodStart f (fst (inflationPeriod d f)).
Proof.
  unfold isPeriodStart. pose proof (period_contains d f) as Hd.
  rewrite (period_canonical d (fst (inflationPeriod d f)) f); [reflexivity | lia].
Qed.

Lemma next_period_isPeriodStart d f : isPeriodStart f (snd (inflationPeriod d f) + 1).
Proof. apply period_next. Qed.

Lemma month_start_isPeriodStart d : isPeriodStart Monthly (firstDayOfMonth d).
Proof. rewrite month_start_monthly. apply period_start_isPeriodStart. Qed.

Lemma zero_historical_keys (zero : ZeroInflationIndex.t) (ts : gmap Z Real) d :
  Forall (isPeriodStart (ZeroInflationIndex.frequency zero))
    (keys (ZeroInflationIndex.historicalFixing zero ts d)).
Proof.
  unfold ZeroInflationIndex.historicalFixing.
  apply Forall_keys_bind;
    [apply Forall_keys_readRequired, period_start_isPeriodStart|].
  intros I1. destruct (_ && _); [|constructor].
  apply Forall_keys_bind;
    [apply Forall_keys_readRequired, next_period_isPeriodStart|].
  intros I2. apply Forall_keys_bind; [apply Forall_keys_deref|].
  constructor.
Qed.

Lemma needsForecast_probe (zero : ZeroInflationIndex.t) today (ts : gmap Z Real) d :
  Forall (fun k => k = firstDayOfMonth (ZeroInflationIndex.latestNeededDate zero d))
    (keys (ZeroInflationIndex.needsForecast zero today ts d)).
Proof.
  destruct (keys_needsForecast zero today ts d) as [-> | ->]; repeat constructor.
Qed.

Lemma zero_fixing_fuel_keys (P : Z -> Prop) (zero : ZeroInflationIndex.t) today
    (ts : gmap Z Real) :
  (forall d, P (firstDayOfMonth d)) ->
  (forall d, isPeriodStart (ZeroInflationIndex.frequency zero) d -> P d) ->
  forall fuel d, Forall P (keys (ZeroInflationIndex.fixing_fuel fuel zero today ts d)).
Proof.
  intros Hmonth Hstart.
  assert (Hprobe : forall d, Forall P (keys (ZeroInflationIndex.needsForecast zero today ts d))).
  { intros d. eapply List.Forall_impl; [|apply needsForecast_probe].
    cbn. intros k ->. apply Hmonth. }
  induction fuel as [|fuel IH]; intros d; [constructor|].
  rewrite fixing_fuel_S.
  apply Forall_keys_bind; [apply Hprobe|]. intros forecast.
  destruct (negb forecast).
  - eapply List.Forall_impl; [|apply zero_historical_keys]. exact Hstart.
  - unfold ZeroInflationIndex.forecastFixingWith.
    apply Forall_keys_bind; [apply Forall_keys_deref|]. intros curve.
    apply Forall_keys_bind; [apply Hprobe|]. intros baseNeedsForecast.
    apply Forall_keys_bind; [destruct (negb baseNeedsForecast); constructor|].
    intros _. apply Forall_keys_bind; [apply IH|]. intros baseFixing. constructor.
Qed.

Lemma yoy_fixing_keys (yoy : YoYInflationIndex.t) today (ts : gmap Z Real) d :
  Forall (isPeriodStart (YoYInflationIndex.frequency yoy))
    (keys (YoYInflationIndex.fixing yoy today ts d)).
Proof.
  assert (Hf : Forall (isPeriodStart (YoYInflationIndex.frequency yoy))
                 (keys (YoYInflationIndex.forecastFixing yoy d))).
  { unfold YoYInflationIndex.forecastFixing.
    apply Forall_keys_bind; [apply Forall_keys_deref|]. constructor. }
  unfold YoYInflationIndex.fixing.
  destruct (_ && _); [exact Hf|]. destruct (_ && _); [exact Hf|].
  unfold YoYInflationIndex.historicalFixing.
  destruct (YoYInflationIndex.ratio yoy), (YoYInflationIndex.interpolated yoy); cbv zeta;
    repeat (apply Forall_keys_bind;
            [apply Forall_keys_readRequired;
             first [apply period_start_isPeriodStart | apply next_period_isPeriodStart]
            | intros ?]);
    try constructor.
  apply Forall_keys_readRequired, period_start_isPeriodStart.
Qed.

(** C3, as amended.  For every date and frequency, the historical branches
    of the zero and year-on-year fixing engines read only period-start keys
    of the series: the start of the period and, when interpolating, the
    start of the next one.  The probe of [needsForecast] in the ambiguous
    window reads the first day of the calendar month of the latest needed
    date, so every key a zero fixing reads is the start of a publication
    period or of a calendar month; the two agree when the frequency is
    monthly. *)
Theorem lookups_read_period_starts
    (zero : ZeroInflationIndex.t) (yoy : YoYInflationIndex.t)
    today (ts : gmap Z Real) d :
  Forall (isPeriodStart (ZeroInflationIndex.frequency zero))
    (keys (ZeroInflationIndex.historicalFixing zero ts d))
  /\ Forall (isPeriodStart (YoYInflationIndex.frequency yoy))
       (keys (YoYInflationIndex.fixing yoy today ts d))
  /\ Forall (fun k => k = firstDayOfMonth (ZeroInflationIndex.latestNeededDate zero d))
       (keys (ZeroInflationIndex.needsForecast zero today ts d))
  /\ Forall (fun k => isPeriodStart (ZeroInflationIndex.frequency zero) k
                      \/ isPeriodStart Monthly k)
       (keys (ZeroInflationIndex.fixing zero today ts d))
  /\ (ZeroInflationIndex.frequency zero = Monthly ->
      Forall (isPeriodStart Monthly)
        (keys (ZeroInflationIndex.fixing zero today ts d))).
Proof.
  split; [apply zero_historical_keys|].
  split; [apply yoy_fixing_keys|].
  split; [apply needsForecast_probe|].
  split.
  - apply zero_fixing_fuel_keys.
    + intros d0. right. apply month_start_isPeriodStart.
    + intros d0 Hd0. left. exact Hd0.
  - intros Hmonthly. apply zero_fixing_fuel_keys.
    + apply month_start_isPeriodStart.
    + rewrite Hmonthly. trivial.
Qed.
End LookupKeys.

(** ** The fixing store *)

Section Store.
Context {RA : RealArith} {YF : YearFraction} {Cal : Calendar} {Laws : CalendarLaws}.
Import InflationIndex.

Lemma addFixings_fill (f : nat -> Z) v force (l : list nat) :
  forall ts : gmap Z Real,
  (force = true
   \/ forall i, In i l -> ts !! f i = None \/ ts !! f i = Some v) ->
  exists ts',
    addFixings ts (map f l) (map (fun _ => v) l) force = Ok ts'
    /\ (forall k, In k (map f l) -> ts' !! k = Some v)
    /\ (forall k, ~ In k (map f l) -> ts' !! k = ts !! k).
Proof.
  induction l as [|i l IH]; intros ts Hpre.
  - exists ts. cbn. split; [reflexivity|]. split; [intros k [] | reflexivity].
  - assert (Hwrite : exists ts',
              addFixings (<[f i := v]> ts) (map f l) (map (fun _ => v) l) force = Ok ts'
              /\ (forall k, In k (map f (i :: l)) -> ts' !! k = Some v)
              /\ (forall k, ~ In k (map f (i :: l)) -> ts' !! k = ts !! k)).
    { destruct (IH (<[f i := v]> ts)) as (ts' & Hok & Hin & Hout).
      { destruct Hpre as [Hforce | Hfree]; [left; exact Hforce | right].
        intros j Hj. destruct (decide (f i = f j)) as [E | E].
        - right. rewrite <- E. apply lookup_insert_eq.
        - rewrite lookup_insert_ne by exact E. apply Hfree. right. exact Hj. }
      exists ts'. split; [exact Hok|]. split.
      - intros k Hk. destruct (in_dec Z.eq_dec k (map f l)) as [Hl | Hl];
          [apply Hin; exact Hl|].
        rewrite (Hout k Hl). destruct Hk as [<- | Hk]; [|contradiction].
        apply lookup_insert_eq.
      - intros k Hk. cbn in Hk.
        rewrite (Hout k) by tauto. apply lookup_insert_ne. tauto. }
    cbn [map addFixings]. destruct (ts !! f i) as [v0|] eqn:E0; [|exact Hwrite].
    destruct force; [exact Hwrite|].
    destruct Hpre as [Hforce | Hfree]; [discriminate|].
    destruct (Hfree i (or_introl eq_refl)) as [Hn | Hs]; [congruence|].
    assert (v0 = v) as -> by congruence.
    destruct (decide (v = v)) as [_ | Hne]; [|contradiction].
    destruct (IH ts) as (ts' & Hok & Hin & Hout).
    { right. intros j Hj. apply Hfree. right. exact Hj. }
    exists ts'. split; [exact Hok|]. split.
    + intros k Hk. destruct (in_dec Z.eq_dec k (map f l)) as [Hl | Hl];
        [apply Hin; exact Hl|].
      rewrite (Hout k Hl). destruct Hk as [<- | Hk]; [exact E0 | contradiction].
    + intros k Hk. apply Hout. cbn in Hk. tauto.
Qed.

Lemma addFixings_conflict (f : nat -> Z) v (l : list nat) :
  forall ts : gmap Z Real,
  (exists i v0, In i l /\ ts !! f i = Some v0 /\ v0 <> v) ->
  exists k, In k (map f l)
            /\ addFixings ts (map f l) (map (fun _ => v) l) false
               = Fail (DuplicateFixing k).
Proof.
  induction l as [|i l IH]; intros ts (j & v0 & Hj & Hv0 & Hne); [destruct Hj|].
  cbn [map addFixings]. destruct (ts !! f i) as [w|] eqn:E.
  - destruct (decide (w = v)) as [-> | Hw].
    + destruct (IH ts) as (k & Hk & Hfail).
      { exists j, v0. repeat split; [|exact Hv0 | exact Hne].
        destruct Hj as [<- | Hj]; [congruence | exact Hj]. }
      exists k. split; [right; exact Hk | exact Hfail].
    + exists (f i). split; [left|]; reflexivity.
  - destruct (IH (<[f i := v]> ts)) as (k & Hk & Hfail).
    { exists j, v0. destruct Hj as [<- | Hj]; [congruence|].
      repeat split; [exact Hj | | exact Hne].
      rewrite lookup_insert_ne; [exact Hv0 | congruence]. }
    exists k. split; [right; exact Hk | exact Hfail].
Qed.

(** The target days of [addFixing] are the days of the period. *)
Lemma In_period_days lo hi k :
  lo <= hi ->
  In k (map (fun i => lo + Z.of_nat i) (seq 0 (Z.to_nat (hi - lo) + 1)))
  <-> lo <= k <= hi.
Proof.
  intros Hle. rewrite in_map_iff. split.
  - intros (i & <- & Hi). apply in_seq in Hi. lia.
  - intros Hk. exists (Z.to_nat (k - lo)). split; [lia|]. apply in_seq. lia.
Qed.

Lemma addFixing_fill self (ts : gmap Z Real) d v force :
  let lim := inflationPeriod d (frequency self) in
  (force = true
   \/ forall k, fst lim <= k <= snd lim -> ts !! k = None \/ ts !! k = Some v) ->
  exists ts',
    addFixing self ts d v force = Ok ts'
    /\ (forall k, fst lim <= k <= snd lim -> ts' !! k = Some v)
    /\ (forall k, ~ fst lim <= k <= snd lim -> ts' !! k = ts !! k).
Proof.
  intros lim Hpre. unfold addFixing. fold lim.
  pose proof (period_contains d (frequency self)) as Hd. fold lim in Hd.
  assert (Hle : fst lim <= snd lim) by lia.
  destruct (addFixings_fill (fun i => fst lim + Z.of_nat i) v force
              (seq 0 (Z.to_nat (snd lim - fst lim) + 1)) ts)
    as (ts' & Hok & Hin & Hout).
  { destruct Hpre as [Hf | Hfree]; [left; exact Hf | right].
    intros i Hi. apply Hfree. apply in_seq in Hi. lia. }
  exists ts'. split; [exact Hok|]. split.
  - intros k Hk. apply Hin, In_period_days; assumption.
  - intros k Hk. apply Hout. rewrite In_period_days; assumption.
Qed.

(** C7, as amended.  Starting from a series with no fixing in the period
    [lim] containing [d], [addFixing d v] succeeds and writes [v] at every
    day of [lim]; a later historical fixing over that store returns [v]
    for every day of [lim] when read through a zero index that is not
    interpolated or a year-on-year index that is neither interpolated nor
    a ratio, and for the first day of [lim] when read through an
    interpolated zero index.  A second [addFixing] at a date of [lim] with
    a different value fails with DuplicateFixing when [forceOverwrite] is
    false, and with [forceOverwrite] true succeeds and updates every day
    of [lim]. *)
Theorem addFixing_round_trip self (ts : gmap Z Real) d v :
  let lim := inflationPeriod d (frequency self) in
  (forall k, fst lim <= k <= snd lim -> ts !! k = None) ->
  exists ts1,
    addFixing self ts d v false = Ok ts1
    /\ (forall k, fst lim <= k <= snd lim -> ts1 !! k = Some v)
    /\ (forall (zero : ZeroInflationIndex.t) today d',
          ZeroInflationIndex.base zero = self ->
          fst lim <= d' <= snd lim ->
          ZeroInflationIndex.interpolated zero = false \/ d' = fst lim ->
          outcome (ZeroInflationIndex.needsForecast zero today ts1 d') = Ok false ->
          outcome (ZeroInflationIndex.fixing zero today ts1 d') = Ok v)
    /\ (forall (yoy : YoYInflationIndex.t) today d',
          YoYInflationIndex.base yoy = self ->
          fst lim <= d' <= snd lim ->
          YoYInflationIndex.interpolated yoy = false ->
          YoYInflationIndex.ratio yoy = false ->
          d' < YoYInflationIndex.flatMustForecastOn yoy today ->
          outcome (YoYInflationIndex.fixing yoy today ts1 d') = Ok v)
    /\ (forall d2 v', fst lim <= d2 <= snd lim -> v' <> v ->
          exists k, fst lim <= k <= snd lim
                    /\ addFixing self ts1 d2 v' false = Fail (DuplicateFixing k))
    /\ (forall d2 v', fst lim <= d2 <= snd lim ->
          exists ts2, addFixing self ts1 d2 v' true = Ok ts2
                      /\ forall k, fst lim <= k <= snd lim -> ts2 !! k = Some v').
Proof.
  intros lim Hfree.
  pose proof (period_contains d (frequency self)) as Hd. fold lim in Hd.
  destruct (addFixing_fill self ts d v false) as (ts1 & Hok & Hin & _).
  { right. intros k Hk. left. apply Hfree, Hk. }
  fold lim in Hin. exists ts1. split; [exact Hok|]. split; [exact Hin|].
  repeat split.
  - intros zero today d' Hbase Hd' Hflat Hn.
    rewrite (outcome_fixing_historical _ _ _ _ Hn).
    assert (Hp : inflationPeriod d' (ZeroInflationIndex.frequency zero) = lim).
    { unfold ZeroInflationIndex.frequency. rewrite Hbase.
      apply period_canonical. exact Hd'. }
    rewrite (zero_historicalFixing_flat zero ts1 d' v); [reflexivity | |].
    + rewrite Hp. exact Hflat.
    + rewrite Hp. apply Hin. lia.
  - intros yoy today d' Hbase Hd' Hflat Hratio Hhist.
    rewrite yoy_fixing_historical by (rewrite Hflat; exact Hhist).
    rewrite yoy_historicalFixing_flat by assumption.
    unfold YoYInflationIndex.frequency. rewrite Hbase.
    rewrite outcome_readRequired, (period_canonical d d' _ Hd').
    fold lim. rewrite Hin by lia. reflexivity.
  - intros d2 v' Hd2 Hne. unfold addFixing.
    rewrite (period_canonical d d2 _ Hd2). fold lim.
    destruct (addFixings_conflict (fun i => fst lim + Z.of_nat i) v'
                (seq 0 (Z.to_nat (snd lim - fst lim) + 1)) ts1)
      as (k & Hk & Hfail).
    { exists 0%nat, v. repeat split.
      - apply in_seq. lia.
      - apply Hin. lia.
      - congruence. }
    exists k. split; [|exact Hfail]. apply In_period_days in Hk; lia.
  - intros d2 v' Hd2.
    destruct (addFixing_fill self ts1 d2 v' true) as (ts2 & Hok2 & Hin2 & _);
      [left; reflexivity|].
    rewrite (period_canonical d d2 _ Hd2) in Hin2.
    exists ts2. split; [exact Hok2 | exact Hin2].
Qed.
End Store.


(** * Further properties of the engines *)

(** ** The zero engine: recursion, failures, unbound curve *)

Section ZeroFurther.
Context {RA : RealArith} {YF : YearFraction} {Cal : Calendar}.
Import ZeroInflationIndex.

(** X1.  [fixing] and [forecastFixing] call each other, but never more than
    one level deep: past the base-date guard the nested [fixing baseDate]
    is the historical branch, so unfolding the recursion further changes
    nothing and [fixing] always comes back with a value or an error. *)
Theorem zero_fixing_recursion_bounded self today (ts : gmap Z Real) d :
  (forall fuel, fixing_fuel (S (S fuel)) self today ts d = fixing self today ts d)
  /\ (forall curve, zeroInflation self = Some curve ->
       let baseDate := ZeroInflationTermStructure.baseDate curve in
       outcome (needsForecast self today ts baseDate) = Ok false ->
       outcome (fixing self today ts baseDate)
         = outcome (historicalFixing self ts baseDate))
  /\ outcome (fixing self today ts d) <> Fail Diverged.
Proof.
  split; [intros fuel; apply fixing_fuel_stable|]. split.
  - intros curve _ baseDate En. apply outcome_fixing_historical, En.
  - apply fixing_total.
Qed.

(** X3.  With no curve bound, a zero index still serves the historical
    fixings that need no interpolation; a forecast fails with UnboundCurve,
    and so does an interpolated historical fixing even though both of its
    entries are stored, because the weight needs the curve's observation
    lag. *)
Theorem zero_fixing_without_curve self today (ts : gmap Z Real) d :
  let p := inflationPeriod d (frequency self) in
  zeroInflation self = None ->
  (outcome (needsForecast self today ts d) = Ok true ->
   outcome (fixing self today ts d) = Fail UnboundCurve)
  /\ (outcome (needsForecast self today ts d) = Ok false ->
      interpolated self = true -> fst p < d ->
      is_Some (ts !! fst p) -> is_Some (ts !! (snd p + 1)) ->
      outcome (fixing self today ts d) = Fail UnboundCurve)
  /\ (forall v, outcome (needsForecast self today ts d) = Ok false ->
      interpolated self = false \/ d = fst p ->
      ts !! fst p = Some v ->
      outcome (fixing self today ts d) = Ok v).
Proof.
  intros p Hnone. split; [|split].
  - intros En. rewrite (outcome_fixing_forecast _ _ _ _ En).
    unfold forecastFixing, forecastFixingWith. rewrite Hnone. reflexivity.
  - intros En Hi Hlt [I1 H1] [I2 H2].
    rewrite (outcome_fixing_historical _ _ _ _ En).
    unfold historicalFixing. fold p.
    rewrite outcome_bind, outcome_readRequired, H1, Hi.
    destruct (Z.ltb_spec (fst p) d); [|lia]. cbn [andb].
    rewrite outcome_bind, outcome_readRequired, H2, Hnone. reflexivity.
  - intros v En Hflat Hv.
    rewrite (outcome_fixing_historical _ _ _ _ En).
    rewrite (zero_historicalFixing_flat self ts d v Hflat Hv). reflexivity.
Qed.

(** X4.  [clone] changes the curve and nothing else: the clone classifies
    every date as the original does, and its historical fixings that need
    no interpolation are those of the original, whatever curve it is
    given. *)
Theorem zero_clone_keeps_history self h today (ts : gmap Z Real) d :
  base (clone self h) = base self
  /\ zeroInflation (clone self h) = h
  /\ needsForecast (clone self h) today ts d = needsForecast self today ts d
  /\ (outcome (needsForecast self today ts d) = Ok false ->
      interpolated self = false
      \/ d = fst (inflationPeriod d (frequency self)) ->
      fixing (clone self h) today ts d = fixing self today ts d).
Proof.
  split; [reflexivity|]. split; [reflexivity|]. split; [reflexivity|].
  intros En Hflat.
  assert (Hhist : forall s : t, base s = base self ->
            historicalFixing s ts d
              = (I1 <- readRequired ts (fst (inflationPeriod d (frequency self)))
                         (name self) (fst (inflationPeriod d (frequency self))) ;;
                 ret I1)).
  { intros s Hs. unfold historicalFixing, frequency, name, interpolated.
    rewrite Hs. fold (frequency self). fold (name self). fold (interpolated self).
    apply bind_ext. intros I1.
    destruct Hflat as [-> | Hstart]; [reflexivity|].
    rewrite <- Hstart, Z.ltb_irrefl, andb_false_r. reflexivity. }
  rewrite !fixing_unfold.
  change (needsForecast (clone self h) today ts d) with (needsForecast self today ts d).
  destruct (needsForecast self today ts d) as [tr [b|e]]; cbn in En; [|discriminate].
  injection En as ->. cbn [bind negb].
  rewrite (Hhist (clone self h) eq_refl), (Hhist self eq_refl). reflexivity.
Qed.
End ZeroFurther.

Section ZeroFailures.
Context {RA : RealArith} {YF : YearFraction} {Cal : Calendar} {Laws : CalendarLaws}.
Import ZeroInflationIndex.

End ZeroFailures.

(** ** The year-on-year engine: frontier, forecasts, failures *)

Section YoYFurther.
Context {RA : RealArith} {Cal : Calendar} {Laws : CalendarLaws}.
Import YoYInflationIndex.

Lemma yoy_frontiers self today :
  0 <= plength (availabilityLag self) ->
  interpMustForecastOn self today <= flatMustForecastOn self today
  /\ flatMustForecastOn self today <= today.
Proof.
  intros Hlag. unfold interpMustForecastOn, flatMustForecastOn, date_minus.
  cbv zeta. split.
  - apply advance_backward.
    pose proof (Period_of_Frequency_nonneg (frequency self)). lia.
  - pose proof (advance_backward today (- plength (availabilityLag self))
                  (punits (availabilityLag self)) ltac:(lia)).
    pose proof (period_contains
                  (advance today (- plength (availabilityLag self))
                     (punits (availabilityLag self))) (frequency self)).
    lia.
Qed.

(** X5.  With an availability lag of non-negative length the forecasting
    frontiers of the year-on-year engine are ordered: interpolated indexes
    start forecasting no later than flat ones, and both no later than
    today.  From the flat frontier on (so for every date from today on),
    [fixing] is [forecastFixing] and reads nothing from the series, whatever
    the series holds. *)
Theorem yoy_fixing_forecast_region self today (ts : gmap Z Real) d :
  0 <= plength (availabilityLag self) ->
  interpMustForecastOn self today <= flatMustForecastOn self today
  /\ flatMustForecastOn self today <= today
  /\ (flatMustForecastOn self today <= d ->
      fixing self today ts d = forecastFixing self d
      /\ keys (fixing self today ts d) = []).
Proof.
  intros Hlag. destruct (yoy_frontiers self today Hlag) as [Hif Hft].
  split; [exact Hif|]. split; [exact Hft|]. intros Hd.
  assert (E : fixing self today ts d = forecastFixing self d).
  { unfold fixing. destruct (interpolated self); cbn [andb negb].
    - destruct (Z.leb_spec (interpMustForecastOn self today) d); [reflexivity | lia].
    - destruct (Z.leb_spec (flatMustForecastOn self today) d); [reflexivity | lia]. }
  split; [exact E|]. rewrite E. unfold forecastFixing.
  destruct (yoyInflation self); reflexivity.
Qed.

(** X6.  The forecast of a non-interpolated year-on-year index is the
    curve's rate at the start of the period, hence the same for every day
    of a publication period; it fails, with UnboundCurve, exactly when no
    curve is bound. *)
Theorem yoy_forecast_flat_across_period self d d' :
  interpolated self = false ->
  fst (inflationPeriod d (frequency self)) <= d'
    <= snd (inflationPeriod d (frequency self)) ->
  forecastFixing self d' = forecastFixing self d
  /\ (forall curve, yoyInflation self = Some curve ->
      forecastFixing self d
        = ret (YoYInflationTermStructure.yoyRate curve
                 (fst (inflationPeriod d (frequency self))) (mkPeriod 0 Days)))
  /\ (outcome (forecastFixing self d) = Fail UnboundCurve
      <-> yoyInflation self = None).
Proof.
  intros Hflat Hin. unfold forecastFixing. rewrite Hflat.
  rewrite (period_canonical d d' _ Hin). split; [reflexivity|]. split.
  - intros curve ->. reflexivity.
  - destruct (yoyInflation self); cbn; split; intros; congruence.
Qed.


(** X8.  [clone] of a year-on-year index changes the curve and nothing
    else: before the frontier of the index the fixing of the clone is that
    of the original, whatever curve the clone is given. *)
Theorem yoy_clone_keeps_history self h today (ts : gmap Z Real) d :
  (if interpolated self then d < interpMustForecastOn self today
   else d < flatMustForecastOn self today) ->
  base (clone self h) = base self
  /\ ratio (clone self h) = ratio self
  /\ yoyInflation (clone self h) = h
  /\ fixing (clone self h) today ts d = fixing self today ts d.
Proof.
  intros Hhist. repeat split.
  rewrite !yoy_fixing_historical; [reflexivity | exact Hhist | exact Hhist].
Qed.
End YoYFurther.

(** ** Whole periods are known or forecast *)

Section WholePeriods.
Context {RA : RealArith} {YF : YearFraction} {Cal : Calendar} {Laws : CalendarLaws}.

Lemma before_period_start f s d :
  isPeriodStart f s -> (d < s <-> snd (inflationPeriod d f) < s).
Proof.
  intros Hs. pose proof (period_contains d f) as Hd. split; [|lia].
  intros Hlt. destruct (Z.lt_ge_cases (snd (inflationPeriod d f)) s) as [|Hge];
    [assumption|].
  assert (Hp : inflationPeriod s f = inflationPeriod d f)
    by (apply period_canonical; lia).
  unfold isPeriodStart in Hs. rewrite Hp in Hs. lia.
Qed.

(** X9.  The frontier between known and unknown history falls between two
    publication periods: [historicalFixingKnown + 1] and the flat frontier
    of the year-on-year engine are period starts.  So a non-interpolated
    zero index knows a date for sure exactly when it knows the whole period
    of that date, and a non-interpolated year-on-year index reads a date
    from history exactly when it reads the whole period from history. *)
Theorem frontier_is_period_start
    (zero : ZeroInflationIndex.t) (yoy : YoYInflationIndex.t) today d :
  isPeriodStart (ZeroInflationIndex.frequency zero)
    (ZeroInflationIndex.historicalFixingKnown zero today + 1)
  /\ (d <= ZeroInflationIndex.historicalFixingKnown zero today
      <-> snd (inflationPeriod d (ZeroInflationIndex.frequency zero))
          <= ZeroInflationIndex.historicalFixingKnown zero today)
  /\ isPeriodStart (YoYInflationIndex.frequency yoy)
       (YoYInflationIndex.flatMustForecastOn yoy today)
  /\ (d < YoYInflationIndex.flatMustForecastOn yoy today
      <-> snd (inflationPeriod d (YoYInflationIndex.frequency yoy))
          < YoYInflationIndex.flatMustForecastOn yoy today).
Proof.
  assert (Hz : isPeriodStart (ZeroInflationIndex.frequency zero)
                 (ZeroInflationIndex.historicalFixingKnown zero today + 1)).
  { unfold ZeroInflationIndex.historicalFixingKnown. cbv zeta.
    replace (_ - 1 + 1) with
      (fst (inflationPeriod
              (date_minus today (ZeroInflationIndex.availabilityLag zero))
              (ZeroInflationIndex.frequency zero))) by lia.
    apply period_start_isPeriodStart. }
  assert (Hy : isPeriodStart (YoYInflationIndex.frequency yoy)
                 (YoYInflationIndex.flatMustForecastOn yoy today)).
  { unfold YoYInflationIndex.flatMustForecastOn. cbv zeta.
    replace (_ - 1 + 1) with
      (fst (inflationPeriod
              (date_minus today (YoYInflationIndex.availabilityLag yoy))
              (YoYInflationIndex.frequency yoy))) by lia.
    apply period_start_isPeriodStart. }
  split; [exact Hz|]. split.
  - pose proof (before_period_start _ _ d Hz). lia.
  - split; [exact Hy|]. apply before_period_start, Hy.
Qed.

(** X10.  The forecast of a non-interpolated zero index depends on the date
    only through its publication period: every day of a period gets the
    same forecast, lookups and failures included. *)
Theorem zero_forecast_flat_across_period (self : ZeroInflationIndex.t) today
    (ts : gmap Z Real) d d' :
  ZeroInflationIndex.interpolated self = false ->
  fst (inflationPeriod d (ZeroInflationIndex.frequency self)) <= d'
    <= snd (inflationPeriod d (ZeroInflationIndex.frequency self)) ->
  ZeroInflationIndex.forecastFixing self today ts d'
    = ZeroInflationIndex.forecastFixing self today ts d.
Proof.
  intros Hflat Hin.
  unfold ZeroInflationIndex.forecastFixing, ZeroInflationIndex.forecastFixingWith.
  apply bind_ext. intros curve. apply bind_ext. intros baseNeedsForecast.
  apply bind_ext. intros _. apply bind_ext. intros baseFixing.
  unfold ZeroInflationIndex.forecastValue.
  rewrite Hflat, (period_canonical d d' _ Hin). reflexivity.
Qed.
End WholePeriods.

(** ** The store keeps whole periods *)

Section StoreFurther.
Context {RA : RealArith} {YF : YearFraction} {Cal : Calendar} {Laws : CalendarLaws}.

Lemma addFixing_success_free (self : InflationIndex.t) (ts ts' : gmap Z Real)
    d v :
  InflationIndex.addFixing self ts d v false = Ok ts' ->
  forall k,
    fst (inflationPeriod d (InflationIndex.frequency self)) <= k
      <= snd (inflationPeriod d (InflationIndex.frequency self)) ->
    ts !! k = None \/ ts !! k = Some v.
Proof.
  intros Hok k Hk. destruct (ts !! k) as [v0|] eqn:E; [|left; reflexivity].
  destruct (decide (v0 = v)) as [-> | Hne]; [right; reflexivity|].
  exfalso. unfold InflationIndex.addFixing in Hok. cbv zeta in Hok.
  set (lo := fst (inflationPeriod d (InflationIndex.frequency self))) in *.
  set (hi := snd (inflationPeriod d (InflationIndex.frequency self))) in *.
  destruct (addFixings_conflict (fun i => lo + Z.of_nat i) v
              (seq 0 (Z.to_nat (hi - lo) + 1)) ts) as (j & _ & Hfail).
  { exists (Z.to_nat (k - lo)), v0. repeat split.
    - apply in_seq. lia.
    - replace (lo + Z.of_nat (Z.to_nat (k - lo))) with k by lia. exact E.
    - exact Hne. }
  rewrite Hfail in Hok. discriminate.
Qed.

Lemma addFixing_preserves_uniform (self : InflationIndex.t)
    (ts ts' : gmap Z Real) d v force :
  InflationIndex.addFixing self ts d v force = Ok ts' ->
  periodUniform (InflationIndex.frequency self) ts ->
  periodUniform (InflationIndex.frequency self) ts'.
Proof.
  intros Hok Hu k.
  set (f := InflationIndex.frequency self) in *.
  set (lim := inflationPeriod d f).
  destruct (addFixing_fill self ts d v force) as (ts'' & Hok' & Hin & Hout).
  { destruct force; [left; reflexivity | right].
    apply (addFixing_success_free self ts ts' d v Hok). }
  rewrite Hok in Hok'. injection Hok' as <-. fold f lim in Hin, Hout.
  pose proof (period_contains k f) as Hk.
  destruct (decide (fst lim <= k <= snd lim)) as [Hkin | Hkout].
  - rewrite (period_canonical d k f Hkin). fold lim.
    pose proof (period_contains d f) as Hd. fold lim in Hd.
    rewrite !Hin by lia. reflexivity.
  - assert (Hs : ~ fst lim <= fst (inflationPeriod k f) <= snd lim).
    { intros Hs. apply Hkout.
      pose proof (period_canonical d _ f Hs) as E1.
      pose proof (period_canonical k (fst (inflationPeriod k f)) f
                    (conj (Z.le_refl _) (Z.le_trans _ _ _ (proj1 Hk) (proj2 Hk)))) as E2.
      unfold lim. rewrite <- E1, E2. exact Hk. }
    rewrite (Hout _ Hkout), (Hout _ Hs). apply Hu.
Qed.

(** X11.  [addFixing] works on whole periods.  When it succeeds, every day
    of the period containing the fixing date holds the submitted value and
    every day outside that period keeps its entry; so a store in which
    every day carries the entry of its period start (as the empty store
    does) stays so. *)
Theorem addFixing_keeps_whole_periods (self : InflationIndex.t)
    (ts ts' : gmap Z Real) d v force :
  let f := InflationIndex.frequency self in
  let lim := inflationPeriod d f in
  InflationIndex.addFixing self ts d v force = Ok ts' ->
  (forall k, fst lim <= k <= snd lim -> ts' !! k = Some v)
  /\ (forall k, ~ fst lim <= k <= snd lim -> ts' !! k = ts !! k)
  /\ (periodUniform f ts -> periodUniform f ts')
  /\ periodUniform f (∅ : gmap Z Real).
Proof.
  intros f lim Hok.
  destruct (addFixing_fill self ts d v force) as (ts'' & Hok' & Hin & Hout).
  { destruct force; [left; reflexivity | right].
    apply (addFixing_success_free self ts ts' d v Hok). }
  rewrite Hok in Hok'. injection Hok' as <-. fold f lim in Hin, Hout.
  split; [exact Hin|]. split; [exact Hout|]. split.
  - apply (addFixing_preserves_uniform self ts ts' d v force Hok).
  - intros k. rewrite !lookup_empty. reflexivity.
Qed.
End StoreFurther.

Section UniformStore.
Context {RA : RealArith} {YF : YearFraction} {Cal : Calendar}
        {Laws : CalendarLaws} {DayLaws : CalendarDayLaws}.
Import ZeroInflationIndex.

(** X12.  On a store that keeps whole periods, the probe of [needsForecast]
    agrees with the lookup of the fixing: for a non-interpolated index and
    a date in the ambiguous window (after [historicalFixingKnown], not
    after today), a forecast is needed exactly when the date has no entry,
    and otherwise the fixing is that entry, never a MissingFixing. *)
Theorem zero_flat_fixing_on_uniform_store self today (ts : gmap Z Real) d :
  periodUniform (frequency self) ts ->
  interpolated self = false ->
  historicalFixingKnown self today < d <= today ->
  outcome (needsForecast self today ts d)
    = Ok (match ts !! d with None => true | Some _ => false end)
  /\ (forall v, ts !! d = Some v -> outcome (fixing self today ts d) = Ok v).
Proof.
  intros Hu Hflat [Hlo Hhi].
  pose proof (period_contains d (frequency self)) as Hd.
  assert (Hprobe : ts !! firstDayOfMonth d = ts !! d).
  { rewrite (Hu d), (Hu (firstDayOfMonth d)).
    rewrite (period_canonical d (firstDayOfMonth d) (frequency self));
      [reflexivity|].
    pose proof (month_start_in_period d (frequency self)).
    pose proof (month_start_le d). lia. }
  assert (Hn : outcome (needsForecast self today ts d)
               = Ok (match ts !! d with None => true | Some _ => false end)).
  { unfold needsForecast, latestNeededDate. rewrite Hflat.
    destruct (Z.leb_spec d (historicalFixingKnown self today)); [lia|].
    destruct (Z.ltb_spec today d); [lia|].
    cbn. rewrite Hprobe. reflexivity. }
  split; [exact Hn|]. intros v Hv. rewrite Hv in Hn.
  rewrite (outcome_fixing_historical _ _ _ _ Hn).
  rewrite (zero_historicalFixing_flat self ts d v);
    [reflexivity | left; exact Hflat | rewrite <- (Hu d); exact Hv].
Qed.
End UniformStore.

(** ** Lagged CPI: the effective interpolation *)

Section LaggedFurther.
Context {RA : RealArith} {YF : YearFraction} {Cal : Calendar} {Laws : CalendarLaws}.
Import CPI.

(** X13.  [effectiveInterpolationType] resolves [AsIndex] away and leaves
    every other tag alone, so resolving twice is resolving once.  For a
    non-interpolated index the resolution does not change the lagged
    fixing: [AsIndex] and the [Flat] it resolves to give the same result
    whenever the lagged date and the start of its period are both
    classified as historical. *)
Theorem effectiveInterpolationType_resolves index type today
    (ts : gmap Z Real) date lag :
  effectiveInterpolationType index type <> AsIndex
  /\ effectiveInterpolationType index (effectiveInterpolationType index type)
     = effectiveInterpolationType index type
  /\ (type <> AsIndex -> effectiveInterpolationType index type = type)
  /\ (ZeroInflationIndex.interpolated index = false ->
      let lagged := date_minus date lag in
      let start := fst (inflationPeriod lagged (ZeroInflationIndex.frequency index)) in
      outcome (ZeroInflationIndex.needsForecast index today ts lagged) = Ok false ->
      outcome (ZeroInflationIndex.needsForecast index today ts start) = Ok false ->
      outcome (laggedFixing index today ts date lag AsIndex)
        = outcome (laggedFixing index today ts date lag
                     (effectiveInterpolationType index AsIndex))).
Proof.
  split; [|split; [|split]].
  - unfold effectiveInterpolationType.
    destruct type; try discriminate.
    destruct (ZeroInflationIndex.interpolated index); discriminate.
  - unfold effectiveInterpolationType.
    destruct type; try reflexivity.
    destruct (ZeroInflationIndex.interpolated index); reflexivity.
  - destruct type; [contradiction | reflexivity ..].
  - intros Hflat lagged start Hn1 Hn2.
    unfold effectiveInterpolationType, laggedFixing. rewrite Hflat. cbv zeta.
    fold lagged. fold start.
    rewrite (outcome_fixing_historical _ _ _ _ Hn1),
      (outcome_fixing_historical _ _ _ _ Hn2).
    unfold ZeroInflationIndex.historicalFixing. rewrite Hflat. cbn [andb].
    rewrite !outcome_bind, !outcome_readRequired.
    fold start.
    replace (fst (inflationPeriod start (ZeroInflationIndex.frequency index)))
      with start; [reflexivity|].
    symmetry. apply period_start_isPeriodStart.
Qed.
End LaggedFurther.

(** ** Interpolated values under ideal real arithmetic *)

Section IdealInterpolation.
Local Existing Instance ideal_reals.
Context {YF : YearFraction} {Cal : Calendar}
        {Laws : CalendarLaws} {DayLaws : CalendarDayLaws}.

Lemma day_share_bounds (a b : Z) :
  0 <= a < b -> (0 <= IZR a / IZR b < 1)%R.
Proof.
  intros [Ha Hb].
  assert (Hb' : (0 < IZR b)%R) by (apply IZR_lt; lia).
  assert (Ha' : (0 <= IZR a)%R) by (apply IZR_le; lia).
  assert (Hab : (IZR a < IZR b)%R) by (apply IZR_lt; lia).
  split.
  - apply Rmult_le_pos; [exact Ha'|]. left. apply Rinv_0_lt_compat, Hb'.
  - apply Rmult_lt_reg_r with (r := IZR b); [exact Hb'|].
    unfold Rdiv. rewrite Rmult_assoc, Rinv_l by lra. lra.
Qed.

Lemma blend_between (x y w : R) :
  (0 <= w < 1)%R ->
  let v := (x + (y - x) * w)%R in
  ((x <= y -> x <= v <= y) /\ (y <= x -> y <= v <= x) /\ (v = y -> x = y))%R.
Proof. intros Hw v. unfold v. repeat split; intros; nra. Qed.

Lemma period_share (d : Z) f :
  0 <= d - fst (inflationPeriod d f)
    < snd (inflationPeriod d f) + 1 - fst (inflationPeriod d f).
Proof. pose proof (period_contains d f). lia. Qed.



(** X17.  In ideal real arithmetic the forecast of an interpolated zero
    index for a date inside a period lies between its forecasts for the
    start of that period and for the start of the next one, which are the
    two compounded values it blends. *)
Theorem zero_interpolated_forecast_between (self : ZeroInflationIndex.t)
    curve baseDate (baseFixing : Real) d :
  let p := inflationPeriod d (ZeroInflationIndex.frequency self) in
  let next := snd p + 1 in
  let value := ZeroInflationIndex.forecastValue self curve baseDate baseFixing in
  ZeroInflationIndex.interpolated self = true ->
  ((value (fst p) <= value next -> value (fst p) <= value d <= value next)
   /\ (value next <= value (fst p) -> value next <= value d <= value (fst p)))%R.
Proof.
  intros p next value Hi. unfold next.
  pose proof (period_contains d (ZeroInflationIndex.frequency self)) as Hd.
  fold p in Hd.
  assert (Hstart : forall s, isPeriodStart (ZeroInflationIndex.frequency self) s ->
            value s
            = (baseFixing
               * rpow (rone + ZeroInflationTermStructure.zeroRate curve s
                                (mkPeriod 0 Days) false)
                   (inflationYearFraction (ZeroInflationIndex.frequency self) true
                      (ZeroInflationTermStructure.dayCounter curve) baseDate s))%ql).
  { intros s Hs. unfold value, ZeroInflationIndex.forecastValue. cbv zeta.
    unfold isPeriodStart in Hs. rewrite Hi, !Hs, Z.ltb_irrefl. reflexivity. }
  rewrite (Hstart (fst p) (period_start_isPeriodStart d _)).
  rewrite (Hstart (snd p + 1) (next_period_isPeriodStart d _)).
  unfold value, ZeroInflationIndex.forecastValue. cbv zeta. fold p. rewrite Hi.
  destruct (Z.ltb_spec (fst p) d) as [Hlt | Hge]; cbn [andb].
  - set (x := (baseFixing * rpow _ _)%ql).
    set (y := (baseFixing * rpow _ _)%ql).
    assert (Hw : (0 <= ZeroInflationIndex.interpolationCoefficient self curve d < 1)%R).
    { unfold ZeroInflationIndex.interpolationCoefficient.
      apply day_share_bounds.
      pose proof (period_share
                    (date_plus d (ZeroInflationTermStructure.observationLag curve))
                    (ZeroInflationIndex.frequency self)). lia. }
    destruct (blend_between x y _ Hw) as (H1 & H2 & _). split; assumption.
  - split; intros Hle; split; first [apply Rle_refl | exact Hle].
Qed.
End IdealInterpolation.

(** * The concrete calendar satisfies the calendar contract *)

Module GregorianFacts.
Import Gregorian.

Lemma yearOffset_step y : yearOffset (y + 1) = yearOffset y + 365 + (if isLeap y then 1 else 0).
Proof.
  unfold yearOffset, isLeap.
  replace (y + 1 - 1) with y by lia.
  destruct (y mod 4 =? 0) eqn:E4; destruct (y mod 100 =? 0) eqn:E100;
    destruct (y mod 400 =? 0) eqn:E400; cbn [andb orb negb];
    rewrite ?Z.eqb_eq, ?Z.eqb_neq in *; Z.div_mod_to_equations; lia.
Qed.

Lemma yearOffset_mono a b : a <= b -> yearOffset a <= yearOffset b.
Proof. unfold yearOffset. intros. Z.div_mod_to_equations. lia. Qed.

Lemma year_spec s : yearOffset (year s) < s <= yearOffset (year s + 1).
Proof.
  unfold year.
  set (y := 400 * (s - 1) / 146097 + 1).
  assert (yearOffset (y - 1) < s /\ s <= yearOffset (y + 2)).
  { unfold yearOffset, y. Z.div_mod_to_equations. lia. }
  destruct (s <=? yearOffset y) eqn:E1; [apply Z.leb_le in E1|apply Z.leb_gt in E1].
  - replace (y - 1 + 1) with y by lia. lia.
  - destruct (yearOffset (y + 1) <? s) eqn:E2; [apply Z.ltb_lt in E2|apply Z.ltb_ge in E2].
    + replace (y + 1 + 1) with (y + 2) by lia. lia.
    + lia.
Qed.

Ltac zbool :=
  repeat match goal with
  | H : (_ <=? _) = true |- _ => apply Z.leb_le in H
  | H : (_ <=? _) = false |- _ => apply Z.leb_gt in H
  | H : (_ <? _) = true |- _ => apply Z.ltb_lt in H
  | H : (_ <? _) = false |- _ => apply Z.ltb_ge in H
  | H : (_ =? _) = true |- _ => apply Z.eqb_eq in H
  | H : (_ =? _) = false |- _ => apply Z.eqb_neq in H
  end.

Ltac split_ifs :=
  repeat match goal with
  | |- context [if ?b then _ else _] =>
      let E := fresh "E" in destruct b eqn:E; zbool; try lia
  end.

Ltac eval_closed f :=
  repeat match goal with
  | |- context [f ?l (Z.pos ?p)] =>
      is_ground l; is_ground p;
      let v := eval vm_compute in (f l (Z.pos p)) in change (f l (Z.pos p)) with v
  | H : context [f ?l (Z.pos ?p)] |- _ =>
      is_ground l; is_ground p;
      let v := eval vm_compute in (f l (Z.pos p)) in change (f l (Z.pos p)) with v in H
  end.

Ltac eval_tables := eval_closed monthOffset; eval_closed monthLength.

Ltac month_cases m :=
  let H := fresh "Hcase" in
  assert (m = 1 \/ m = 2 \/ m = 3 \/ m = 4 \/ m = 5 \/ m = 6 \/ m = 7 \/
          m = 8 \/ m = 9 \/ m = 10 \/ m = 11 \/ m = 12) as H by lia;
  repeat (destruct H as [H | H]; [subst m | ]); [.. | subst m].

Lemma year_unique y s : yearOffset y < s <= yearOffset (y + 1) -> year s = y.
Proof.
  intros H. pose proof (year_spec s) as Hs.
  destruct (Z.lt_trichotomy (year s) y) as [Hlt | [Heq | Hgt]]; [|exact Heq|].
  - pose proof (yearOffset_mono (year s + 1) y ltac:(lia)). lia.
  - pose proof (yearOffset_mono (y + 1) (year s) ltac:(lia)). lia.
Qed.

Lemma dayOfYear_bounds s :
  1 <= dayOfYear s <= 365 + (if isLeap (year s) then 1 else 0).
Proof.
  unfold dayOfYear. pose proof (year_spec s) as H.
  rewrite yearOffset_step in H. lia.
Qed.

Lemma monthOfDay_bounds leap n : 1 <= monthOfDay leap n <= 12.
Proof. unfold monthOfDay. split_ifs. Qed.

Lemma monthOfDay_spec (leap : bool) n :
  1 <= n <= 365 + (if leap then 1 else 0) ->
  monthOffset leap (monthOfDay leap n) < n
    <= monthOffset leap (monthOfDay leap n) + monthLength leap (monthOfDay leap n).
Proof.
  intros H. unfold monthOfDay.
  destruct leap; eval_tables; split_ifs; eval_tables; lia.
Qed.

Lemma monthOfDay_mono leap n1 n2 :
  n1 <= n2 -> monthOfDay leap n1 <= monthOfDay leap n2.
Proof.
  intros H. unfold monthOfDay. destruct leap; eval_tables; split_ifs.
Qed.

Lemma monthOfDay_offset leap m d :
  1 <= m <= 12 -> 1 <= d <= monthLength leap m ->
  monthOfDay leap (monthOffset leap m + d) = m.
Proof.
  intros Hm Hd. unfold monthOfDay.
  destruct leap; month_cases m; eval_tables; split_ifs.
Qed.

Lemma monthLength_pos leap m : 28 <= monthLength leap m <= 31.
Proof. unfold monthLength. destruct leap; split_ifs. Qed.

Lemma month_bounds s : 1 <= month s <= 12.
Proof. apply monthOfDay_bounds. Qed.

Lemma dayOfMonth_bounds s :
  1 <= dayOfMonth s <= monthLength (isLeap (year s)) (month s).
Proof.
  pose proof (monthOfDay_spec _ _ (dayOfYear_bounds s)).
  unfold dayOfMonth, month. lia.
Qed.

Lemma mkDate_civil s : mkDate (dayOfMonth s) (month s) (year s) = s.
Proof. unfold mkDate, dayOfMonth, dayOfYear. lia. Qed.

Lemma monthOffset_last (leap : bool) m :
  1 <= m <= 12 ->
  0 <= monthOffset leap m /\
  monthOffset leap m + monthLength leap m <= 365 + (if leap then 1 else 0).
Proof.
  intros Hm. destruct leap; month_cases m; eval_tables; lia.
Qed.

Lemma year_mkDate d m y :
  1 <= m <= 12 -> 1 <= d <= monthLength (isLeap y) m -> year (mkDate d m y) = y.
Proof.
  intros Hm Hd. apply year_unique. rewrite yearOffset_step. unfold mkDate.
  pose proof (monthOffset_last (isLeap y) m Hm). lia.
Qed.

Lemma month_mkDate d m y :
  1 <= m <= 12 -> 1 <= d <= monthLength (isLeap y) m -> month (mkDate d m y) = m.
Proof.
  intros Hm Hd. unfold month, dayOfYear. rewrite (year_mkDate d m y Hm Hd).
  unfold mkDate. replace (yearOffset y + monthOffset (isLeap y) m + d - yearOffset y)
    with (monthOffset (isLeap y) m + d) by lia.
  now apply monthOfDay_offset.
Qed.

Lemma dayOfMonth_mkDate d m y :
  1 <= m <= 12 -> 1 <= d <= monthLength (isLeap y) m -> dayOfMonth (mkDate d m y) = d.
Proof.
  intros Hm Hd. unfold dayOfMonth, dayOfYear.
  rewrite (year_mkDate d m y Hm Hd), (month_mkDate d m y Hm Hd). unfold mkDate. lia.
Qed.

(** The end of a month precedes the start of every later month. *)
Lemma month_order y1 m1 y2 m2 :
  1 <= m1 <= 12 -> 1 <= m2 <= 12 ->
  y1 < y2 \/ (y1 = y2 /\ m1 < m2) ->
  mkDate (monthLength (isLeap y1) m1) m1 y1 < mkDate 1 m2 y2.
Proof.
  intros H1 H2 [Hy | [-> Hm]]; unfold mkDate.
  - pose proof (monthOffset_last (isLeap y1) m1 H1).
    pose proof (monthOffset_last (isLeap y2) m2 H2).
    pose proof (yearOffset_step y1). pose proof (yearOffset_mono (y1 + 1) y2 ltac:(lia)). lia.
  - destruct (isLeap y2); month_cases m1; month_cases m2; eval_tables; lia.
Qed.

Lemma monthRange_spec f m :
  1 <= m <= 12 ->
  1 <= fst (monthRange f m) <= m /\ m <= snd (monthRange f m) <= 12.
Proof. intros Hm. destruct f; cbn; split_ifs; cbn; lia. Qed.

Lemma monthRange_same f m m' :
  fst (monthRange f m) <= m' <= snd (monthRange f m) -> monthRange f m' = monthRange f m.
Proof.
  destruct f; cbn [monthRange]; intros H.
  - reflexivity.
  - destruct (m <=? 6) eqn:E; destruct (m' <=? 6) eqn:E'; zbool; cbn in H;
      first [reflexivity | lia].
  - destruct (m <=? 3) eqn:E3; [|destruct (m <=? 6) eqn:E6; [|destruct (m <=? 9) eqn:E9]];
      cbn [fst snd] in H; zbool; split_ifs; reflexivity.
  - cbn [fst snd] in H. f_equal; lia.
Qed.

Lemma inflationPeriod_eq d f :
  inflationPeriod d f =
    (mkDate 1 (fst (monthRange f (month d))) (year d),
     mkDate (monthLength (isLeap (year d)) (snd (monthRange f (month d))))
       (snd (monthRange f (month d))) (year d)).
Proof.
  unfold inflationPeriod, endOfMonth. cbv zeta.
  pose proof (month_bounds d).
  pose proof (monthRange_spec f (month d) (month_bounds d)) as [_ Hb].
  pose proof (monthLength_pos (isLeap (year d)) (snd (monthRange f (month d)))).
  rewrite year_mkDate, month_mkDate by lia. reflexivity.
Qed.

Lemma monthOffset_mono (leap : bool) a b :
  1 <= a -> a <= b -> b <= 12 ->
  monthOffset leap a <= monthOffset leap b /\
  monthOffset leap a + monthLength leap a <= monthOffset leap b + monthLength leap b.
Proof.
  intros H1 H2 H3.
  destruct leap; month_cases a; month_cases b; try lia; eval_tables; lia.
Qed.

Lemma inflationPeriod_contains d f :
  fst (inflationPeriod d f) <= d <= snd (inflationPeriod d f).
Proof.
  rewrite inflationPeriod_eq. cbn [fst snd].
  pose proof (month_bounds d) as Hm.
  pose proof (monthRange_spec f (month d) Hm) as [Ha Hb].
  pose proof (dayOfMonth_bounds d) as Hd.
  pose proof (monthOffset_mono (isLeap (year d)) _ _ (proj1 Ha) (proj2 Ha) (proj2 Hm)) as [Hoa _].
  pose proof (monthOffset_mono (isLeap (year d)) _ _ (proj1 Hm) (proj1 Hb) (proj2 Hb)) as [_ Hob].
  pose proof (mkDate_civil d) as Hc. unfold mkDate in *. lia.
Qed.

Lemma inflationPeriod_canonical d d' f :
  fst (inflationPeriod d f) <= d' <= snd (inflationPeriod d f) ->
  inflationPeriod d' f = inflationPeriod d f.
Proof.
  rewrite (inflationPeriod_eq d), (inflationPeriod_eq d'). cbn [fst snd].
  pose proof (month_bounds d) as Hm.
  pose proof (monthRange_spec f (month d) Hm) as [Ha Hb].
  set (y := year d) in *. set (a := fst (monthRange f (month d))) in *.
  set (b := snd (monthRange f (month d))) in *.
  intros [Hlo Hhi]. unfold mkDate in Hlo, Hhi.
  pose proof (monthOffset_last (isLeap y) a ltac:(lia)) as [Ha0 _].
  pose proof (monthOffset_last (isLeap y) b ltac:(lia)) as [_ Hb1].
  pose proof (monthLength_pos (isLeap y) a) as Hla.
  pose proof (monthLength_pos (isLeap y) b) as Hlb.
  assert (Hy : year d' = y).
  { apply year_unique. rewrite yearOffset_step. lia. }
  assert (Hm' : a <= month d' <= b).
  { unfold month, dayOfYear. rewrite Hy.
    assert (Ea : monthOfDay (isLeap y) (monthOffset (isLeap y) a + 1) = a)
      by (apply monthOfDay_offset; lia).
    assert (Eb : monthOfDay (isLeap y) (monthOffset (isLeap y) b + monthLength (isLeap y) b) = b)
      by (apply monthOfDay_offset; lia).
    pose proof (monthOfDay_mono (isLeap y) (monthOffset (isLeap y) a + 1) (d' - yearOffset y)
                  ltac:(lia)).
    pose proof (monthOfDay_mono (isLeap y) (d' - yearOffset y)
                  (monthOffset (isLeap y) b + monthLength (isLeap y) b) ltac:(lia)).
    lia. }
  rewrite Hy, (monthRange_same f (month d) (month d')) by exact Hm'. reflexivity.
Qed.

Lemma monthOffset_succ (leap : bool) m :
  1 <= m <= 12 ->
  monthOffset leap m + monthLength leap m =
    if m =? 12 then 365 + (if leap then 1 else 0) else monthOffset leap (m + 1).
Proof. intros Hm. destruct leap; month_cases m; reflexivity. Qed.

Lemma monthRange_next f m :
  1 <= m <= 12 ->
  fst (monthRange f (if snd (monthRange f m) =? 12 then 1 else snd (monthRange f m) + 1))
    = if snd (monthRange f m) =? 12 then 1 else snd (monthRange f m) + 1.
Proof.
  intros Hm. destruct f; cbn [monthRange].
  - reflexivity.
  - destruct (m <=? 6); reflexivity.
  - destruct (m <=? 3); [reflexivity|]. destruct (m <=? 6); [reflexivity|].
    destruct (m <=? 9); reflexivity.
  - cbn [fst snd]. destruct (m =? 12); reflexivity.
Qed.

Lemma inflationPeriod_next d f :
  fst (inflationPeriod (snd (inflationPeriod d f) + 1) f) = snd (inflationPeriod d f) + 1.
Proof.
  rewrite (inflationPeriod_eq d). cbn [snd].
  pose proof (month_bounds d) as Hm.
  pose proof (monthRange_spec f (month d) Hm) as [_ Hb].
  pose proof (monthRange_next f (month d) Hm) as Hn.
  set (y := year d) in *. set (b := snd (monthRange f (month d))) in *.
  assert (He : mkDate (monthLength (isLeap y) b) b y + 1
               = mkDate 1 (if b =? 12 then 1 else b + 1) (if b =? 12 then y + 1 else y)).
  { unfold mkDate. pose proof (monthOffset_succ (isLeap y) b ltac:(lia)) as Hs.
    destruct (b =? 12) eqn:E; zbool.
    - rewrite yearOffset_step. change (monthOffset (isLeap (y + 1)) 1) with 0. lia.
    - lia. }
  rewrite He, inflationPeriod_eq. cbn [fst].
  assert (Hb' : 1 <= (if b =? 12 then 1 else b + 1) <= 12)
    by (destruct (b =? 12) eqn:E; zbool; lia).
  pose proof (monthLength_pos (isLeap (if b =? 12 then y + 1 else y))
                (if b =? 12 then 1 else b + 1)).
  rewrite year_mkDate, month_mkDate by lia. rewrite Hn. reflexivity.
Qed.

Lemma firstDayOfMonth_le d : firstDayOfMonth d <= d.
Proof.
  unfold firstDayOfMonth. pose proof (dayOfMonth_bounds d).
  pose proof (mkDate_civil d). unfold mkDate in *. lia.
Qed.

Lemma firstDayOfMonth_monthly d : firstDayOfMonth d = fst (inflationPeriod d Monthly).
Proof. reflexivity. Qed.

Lemma advance_zero d u : advance d 0 u = d.
Proof.
  pose proof (month_bounds d) as Hm. pose proof (dayOfMonth_bounds d) as Hd.
  destruct u; unfold advance; cbv zeta.
  - lia.
  - lia.
  - replace ((12 * year d + (month d - 1) + 0) / 12) with (year d)
      by (Z.div_mod_to_equations; lia).
    replace ((12 * year d + (month d - 1) + 0) mod 12 + 1) with (month d)
      by (Z.div_mod_to_equations; lia).
    rewrite Z.min_l by lia. apply mkDate_civil.
  - replace (year d + 0) with (year d) by lia.
    destruct ((dayOfMonth d =? 29) && (month d =? 2) && negb (isLeap (year d))) eqn:E.
    + apply andb_prop in E as [E E3]. apply andb_prop in E as [E1 E2]. zbool.
      rewrite E2 in Hd. destruct (isLeap (year d)); [discriminate|].
      change (monthLength false 2) with 28 in Hd. lia.
    + apply mkDate_civil.
Qed.

Lemma advance_later d n u : 0 < n -> d < advance d n u.
Proof.
  intros Hn. pose proof (month_bounds d) as Hm. pose proof (dayOfMonth_bounds d) as Hd.
  pose proof (mkDate_civil d) as Hc.
  destruct u; unfold advance; cbv zeta; try lia.
  - set (t := 12 * year d + (month d - 1) + n).
    assert (Hm' : 1 <= t mod 12 + 1 <= 12) by (Z.div_mod_to_equations; lia).
    pose proof (month_order (year d) (month d) (t / 12) (t mod 12 + 1) Hm Hm') as Ho.
    pose proof (monthLength_pos (isLeap (t / 12)) (t mod 12 + 1)).
    assert (year d < t / 12 \/ year d = t / 12 /\ month d < t mod 12 + 1)
      by (unfold t; Z.div_mod_to_equations; lia).
    unfold mkDate in *. lia.
  - set (day' := if (dayOfMonth d =? 29) && (month d =? 2) && negb (isLeap (year d + n)) then 28 else dayOfMonth d).
    assert (1 <= day') by (unfold day'; destruct ((dayOfMonth d =? 29) && (month d =? 2) && negb (isLeap (year d + n))); lia).
    pose proof (month_order (year d) (month d) (year d + n) (month d) Hm Hm ltac:(lia)).
    unfold mkDate in *. lia.
Qed.

Lemma clamp_day (l l' : bool) m day :
  1 <= m <= 12 -> 1 <= day <= monthLength l m ->
  (if (day =? 29) && (m =? 2) && negb l' then 28 else day) <= monthLength l' m.
Proof.
  intros Hm Hd.
  destruct l, l'; month_cases m; eval_tables;
    destruct (day =? 29) eqn:E; zbool; cbn; lia.
Qed.

Lemma advance_earlier d n u : n < 0 -> advance d n u < d.
Proof.
  intros Hn. pose proof (month_bounds d) as Hm. pose proof (dayOfMonth_bounds d) as Hd.
  pose proof (mkDate_civil d) as Hc.
  destruct u; unfold advance; cbv zeta; try lia.
  - set (t := 12 * year d + (month d - 1) + n).
    assert (Hm' : 1 <= t mod 12 + 1 <= 12) by (Z.div_mod_to_equations; lia).
    pose proof (month_order (t / 12) (t mod 12 + 1) (year d) (month d) Hm' Hm) as Ho.
    assert (t / 12 < year d \/ t / 12 = year d /\ t mod 12 + 1 < month d)
      by (unfold t; Z.div_mod_to_equations; lia).
    unfold mkDate in *. lia.
  - set (day' := if (dayOfMonth d =? 29) && (month d =? 2) && negb (isLeap (year d + n)) then 28 else dayOfMonth d).
    assert (day' <= monthLength (isLeap (year d + n)) (month d))
      by (apply (clamp_day (isLeap (year d))); assumption).
    pose proof (month_order (year d + n) (month d) (year d) (month d) Hm Hm ltac:(lia)).
    unfold mkDate in *. lia.
Qed.

Lemma advance_nonneg d n u : 0 <= n -> d <= advance d n u.
Proof.
  intros Hn. destruct (Z.eq_dec n 0) as [-> | Hne].
  - rewrite advance_zero. lia.
  - pose proof (advance_later d n u ltac:(lia)). lia.
Qed.

Lemma advance_nonpos d n u : n <= 0 -> advance d n u <= d.
Proof.
  intros Hn. destruct (Z.eq_dec n 0) as [-> | Hne].
  - rewrite advance_zero. lia.
  - pose proof (advance_earlier d n u ltac:(lia)). lia.
Qed.
End GregorianFacts.

Lemma gregorian_laws : @CalendarLaws gregorian.
Proof.
  constructor.
  - exact GregorianFacts.inflationPeriod_contains.
  - exact GregorianFacts.inflationPeriod_canonical.
  - exact GregorianFacts.inflationPeriod_next.
  - exact GregorianFacts.firstDayOfMonth_le.
  - exact GregorianFacts.firstDayOfMonth_monthly.
  - exact GregorianFacts.advance_nonneg.
  - exact GregorianFacts.advance_nonpos.
Qed.

(** * The engines on the sample data *)

#[global] Existing Instance gregorian.
#[global] Existing Instance ideal_reals.
#[global] Existing Instance actual365.

Ltac date_order :=
  first [apply Z.leb_le | apply Z.ltb_lt]; vm_compute; reflexivity.

(** ** C1 *)

(** C1 as stated fails twice.  An interpolated index asked on 10 January
    2020 for 15 December 2019, a date strictly before
    [historicalFixingKnown] (31 December 2019), needs the January fixing
    too and so needs a forecast; and with an availability lag of minus
    three months, 15 January 2020 is strictly after [today] and yet
    classified as historical. *)
Lemma needsForecast_counterexample :
  (let self := sample_zero true Monthly (mkPeriod 0 Days) None in
   let today := Gregorian.mkDate 10 1 2020 in
   let d := Gregorian.mkDate 15 12 2019 in
   d < ZeroInflationIndex.historicalFixingKnown self today
   /\ outcome (ZeroInflationIndex.needsForecast self today ∅ d) = Ok true)
  /\ (let self := sample_zero false Monthly (mkPeriod (-3) Months) None in
      let today := Gregorian.mkDate 10 1 2020 in
      let d := Gregorian.mkDate 15 1 2020 in
      today < d
      /\ outcome (ZeroInflationIndex.needsForecast self today ∅ d) = Ok false).
Proof.
  cbv zeta. repeat split; try date_order; vm_compute; reflexivity.
Qed.

Lemma needsForecast_classification_witness :
  let self := sample_zero false Monthly (mkPeriod 0 Days) None in
  let today := Gregorian.mkDate 15 6 2020 in
  0 <= plength (ZeroInflationIndex.availabilityLag self)
  /\ outcome (ZeroInflationIndex.needsForecast self today ∅
                (Gregorian.mkDate 16 1 2020)) = Ok false
  /\ outcome (ZeroInflationIndex.needsForecast self today ∅
                (Gregorian.mkDate 16 6 2020)) = Ok true.
Proof.
  intros self today.
  assert (Hlag : 0 <= plength (ZeroInflationIndex.availabilityLag self))
    by (cbn; lia).
  split; [exact Hlag|]. split.
  - apply (proj1 (proj2 (needsForecast_classification (Laws := gregorian_laws)
                            self today ∅ (Gregorian.mkDate 16 1 2020) Hlag)));
      [reflexivity | date_order].
  - apply (proj2 (proj2 (needsForecast_classification (Laws := gregorian_laws)
                            self today ∅ (Gregorian.mkDate 16 6 2020) Hlag))).
    date_order.
Defined.

(** ** C2 *)

Lemma fixing_interpolated_historical_witness :
  let self := sample_zero true Monthly (mkPeriod 0 Days) (Some (sample_curve 0%R)) in
  outcome (ZeroInflationIndex.fixing self (Gregorian.mkDate 15 6 2020) level_store
             (Gregorian.mkDate 16 1 2020))
    = Ok (110 + (112 - 110) * (IZR 15 / IZR 30))%R.
Proof.
  intros self.
  refine (fixing_interpolated_historical self (Gregorian.mkDate 15 6 2020)
            level_store (Gregorian.mkDate 16 1 2020) (sample_curve 0%R)
            110%R 112%R _ _ _ _ _ _);
    first [reflexivity | date_order].
Defined.

(** ** C3 *)

(** C3 as stated fails for a quarterly index.  With the first quarter of
    2020 published and today 15 March 2020, the fixing for 15 February
    falls in the ambiguous window: [needsForecast] probes 1 February,
    a day inside the quarter, before the fixing reads 1 January. *)
Lemma lookups_counterexample :
  let self := sample_zero false Quarterly (mkPeriod 0 Days) None in
  let today := Gregorian.mkDate 15 3 2020 in
  let d := Gregorian.mkDate 15 2 2020 in
  ZeroInflationIndex.fixing self today quarter_store d
    = ([Gregorian.mkDate 1 2 2020; Gregorian.mkDate 1 1 2020], Ok 100%R)
  /\ inflationPeriod (Gregorian.mkDate 1 2 2020) Quarterly
     = (Gregorian.mkDate 1 1 2020, Gregorian.mkDate 31 3 2020)
  /\ ~ Forall (isPeriodStart Quarterly)
         (keys (ZeroInflationIndex.fixing self today quarter_store d)).
Proof.
  cbv zeta.
  assert (E : ZeroInflationIndex.fixing
                (sample_zero false Quarterly (mkPeriod 0 Days) None)
                (Gregorian.mkDate 15 3 2020) quarter_store (Gregorian.mkDate 15 2 2020)
              = ([Gregorian.mkDate 1 2 2020; Gregorian.mkDate 1 1 2020], Ok 100%R))
    by (vm_compute; reflexivity).
  split; [exact E|]. split; [vm_compute; reflexivity|].
  rewrite E. cbn [keys fst]. intros Hall. apply List.Forall_inv in Hall.
  vm_compute in Hall. discriminate.
Qed.

Lemma lookups_read_period_starts_witness :
  let zero := sample_zero true Monthly (mkPeriod 0 Days) None in
  let yoy := sample_yoy true true Monthly (mkPeriod 0 Days) in
  let today := Gregorian.mkDate 15 6 2020 in
  let d := Gregorian.mkDate 16 1 2020 in
  Forall (isPeriodStart Monthly)
    (keys (ZeroInflationIndex.fixing zero today level_store d))
  /\ Forall (isPeriodStart Monthly)
       (keys (YoYInflationIndex.fixing yoy today level_store d)).
Proof.
  intros zero yoy today d.
  destruct (lookups_read_period_starts (Laws := gregorian_laws)
              zero yoy today level_store d) as (_ & Hyoy & _ & _ & Hzero).
  split; [apply Hzero; reflexivity | exact Hyoy].
Defined.

(** ** C4 *)

(** C4, at the input where the code departs from it.  The ratio,
    non-interpolated branch of the year-on-year engine, asked for
    16 January 2020 on an empty store: the key it looks up and finds
    missing is 1 January 2020, the date its error names is 16 January. *)
Lemma yoy_ratio_flat_reports_fixing_date :
  let self := sample_yoy false true Monthly (mkPeriod 0 Days) in
  let today := Gregorian.mkDate 15 6 2020 in
  let d := Gregorian.mkDate 16 1 2020 in
  YoYInflationIndex.fixing self today ∅ d
    = ([Gregorian.mkDate 1 1 2020], Fail (MissingFixing "EU HICP" d))
  /\ d <> Gregorian.mkDate 1 1 2020.
Proof.
  cbv zeta. split; [vm_compute; reflexivity | vm_compute; discriminate].
Qed.

(** ** C5 and C6 *)

Lemma forecastFixing_constant_rate_witness :
  let z := (2 / 100)%R in
  let self := sample_zero false Monthly (mkPeriod 0 Days) (Some (sample_curve z)) in
  let today := Gregorian.mkDate 15 6 2020 in
  outcome (ZeroInflationIndex.forecastFixing self today level_store
             (Gregorian.mkDate 15 9 2021))
    = Ok (110 * Rpower (1 + z)
                  (IZR (Gregorian.mkDate 1 9 2021 - Gregorian.mkDate 1 1 2020) / 365))%R.
Proof.
  intros z self today.
  refine (forecastFixing_constant_rate self today level_store
            (Gregorian.mkDate 15 9 2021) (sample_curve z) z 110%R _ _ _ _);
    [reflexivity | reflexivity | reflexivity | vm_compute; reflexivity].
Defined.

Lemma forecastFixing_base_date_witness :
  let self := sample_zero false Monthly (mkPeriod 0 Days) (Some (sample_curve 0%R)) in
  let today := Gregorian.mkDate 15 6 2019 in
  let d := Gregorian.mkDate 15 9 2021 in
  outcome (ZeroInflationIndex.forecastFixing self today level_store d)
    = Fail (InvalidBaseDate "EU HICP" (Gregorian.mkDate 1 1 2020)).
Proof.
  intros self today d.
  apply (proj1 (proj2 (forecastFixing_base_date self today level_store d
                         (sample_curve 0%R) eq_refl))).
  vm_compute. reflexivity.
Defined.

(** ** C7 *)

(** C7 as stated fails for an interpolated index.  January 2020 is
    published at 100 on an empty store; on 15 June 2020 the fixing for
    20 January is historical, yet it is not 100: it also needs the
    February entry and fails for lack of it. *)
Lemma addFixing_counterexample :
  let index := sample_index true Monthly (mkPeriod 0 Days) in
  let self := sample_zero true Monthly (mkPeriod 0 Days) (Some (sample_curve 0%R)) in
  let today := Gregorian.mkDate 15 6 2020 in
  let d' := Gregorian.mkDate 20 1 2020 in
  InflationIndex.addFixing index ∅ (Gregorian.mkDate 10 1 2020) 100%R false
    = Ok january_store
  /\ january_store !! d' = Some 100%R
  /\ outcome (ZeroInflationIndex.needsForecast self today january_store d') = Ok false
  /\ outcome (ZeroInflationIndex.fixing self today january_store d')
     = Fail (MissingFixing "EU HICP" (Gregorian.mkDate 1 2 2020)).
Proof.
  cbv zeta. repeat split; vm_compute; reflexivity.
Qed.

Lemma addFixing_round_trip_witness :
  let index := sample_index false Monthly (mkPeriod 0 Days) in
  exists ts1,
    InflationIndex.addFixing index ∅ (Gregorian.mkDate 10 1 2020) 100%R false = Ok ts1
    /\ ts1 !! Gregorian.mkDate 31 1 2020 = Some 100%R
    /\ exists k,
         InflationIndex.addFixing index ts1 (Gregorian.mkDate 20 1 2020) 101%R false
           = Fail (DuplicateFixing k).
Proof.
  intros index.
  destruct (addFixing_round_trip (RA := ideal_reals) (YF := actual365)
              (Laws := gregorian_laws) index ∅
              (Gregorian.mkDate 10 1 2020) 100%R)
    as (ts1 & Hok & Hin & _ & _ & Hdup & _).
  { intros k _. apply lookup_empty. }
  exists ts1. split; [exact Hok|]. split.
  - apply Hin. split; date_order.
  - destruct (Hdup (Gregorian.mkDate 20 1 2020) 101%R) as (k & _ & Hfail).
    + split; date_order.
    + cbn. lra.
    + exists k. exact Hfail.
Defined.

(** ** C8 *)

(** C8 as stated fails for a year-on-year index with [ratio = true]: its
    flat historical fixing is not the value stored at the period start
    (110) but the ratio to the value of a year earlier (100), minus one. *)
Lemma flat_fixing_counterexample :
  let self := sample_yoy false true Monthly (mkPeriod 0 Days) in
  let today := Gregorian.mkDate 15 6 2020 in
  let d := Gregorian.mkDate 16 1 2020 in
  d < YoYInflationIndex.flatMustForecastOn self today
  /\ level_store !! fst (inflationPeriod d Monthly) = Some 110%R
  /\ outcome (YoYInflationIndex.fixing self today level_store d)
     = Ok (110 / 100 - 1)%R
  /\ outcome (YoYInflationIndex.fixing self today level_store d) <> Ok 110%R.
Proof.
  cbv zeta.
  assert (E : outcome (YoYInflationIndex.fixing
                         (sample_yoy false true Monthly (mkPeriod 0 Days))
                         (Gregorian.mkDate 15 6 2020) level_store
                         (Gregorian.mkDate 16 1 2020)) = Ok (110 / 100 - 1)%R)
    by (vm_compute; reflexivity).
  split; [date_order|]. split; [vm_compute; reflexivity|]. split; [exact E|].
  rewrite E. intros [= Heq]. lra.
Qed.

Lemma flat_fixing_is_period_start_value_witness :
  let zero := sample_zero false Monthly (mkPeriod 0 Days) None in
  let yoy := sample_yoy false false Monthly (mkPeriod 0 Days) in
  let today := Gregorian.mkDate 15 6 2020 in
  outcome (ZeroInflationIndex.fixing zero today level_store
             (Gregorian.mkDate 16 1 2020)) = Ok 110%R
  /\ outcome (YoYInflationIndex.fixing yoy today level_store
                (Gregorian.mkDate 16 1 2020)) = Ok 110%R.
Proof.
  intros zero yoy today.
  destruct (flat_fixing_is_period_start_value (RA := ideal_reals)
              (YF := actual365) (Laws := gregorian_laws)
              zero yoy today level_store (Gregorian.mkDate 10 1 2020)
              (Gregorian.mkDate 16 1 2020) 110%R) as [Hzero Hyoy].
  split.
  - apply Hzero; [reflexivity | split; date_order | reflexivity
                 | vm_compute; reflexivity].
  - apply Hyoy; [reflexivity | reflexivity | split; date_order | reflexivity
                | date_order].
Defined.

(** ** C9 *)

Lemma laggedFixing_flat_linear_witness :
  let index := sample_zero true Monthly (mkPeriod 0 Days) None in
  let today := Gregorian.mkDate 15 6 2020 in
  let date := Gregorian.mkDate 1 4 2020 in
  let lag := mkPeriod 3 Months in
  CPI.laggedFixing index today level_store date lag CPI.Flat
    = CPI.laggedFixing index today level_store date lag CPI.Linear
  /\ outcome (CPI.laggedFixing index today level_store date lag CPI.Flat) = Ok 110%R.
Proof.
  intros index today date lag.
  destruct (laggedFixing_flat_linear index today level_store date lag)
    as (Hsame & Hflat & _); [vm_compute; reflexivity|].
  split; [exact Hsame|]. rewrite Hflat. vm_compute. reflexivity.
Defined.

(** ** C10 *)

Lemma yoy_interpolated_at_period_start_witness :
  let yoy := sample_yoy true false Monthly (mkPeriod 0 Days) in
  let zero := sample_zero true Monthly (mkPeriod 0 Days) None in
  let today := Gregorian.mkDate 15 6 2020 in
  let d := Gregorian.mkDate 1 1 2020 in
  outcome (YoYInflationIndex.fixing yoy today january_store d)
    = Fail (MissingFixing "EU HICP" (Gregorian.mkDate 1 2 2020))
  /\ outcome (ZeroInflationIndex.fixing zero today january_store d) = Ok 100%R.
Proof.
  intros yoy zero today d.
  destruct (yoy_interpolated_at_period_start (RA := ideal_reals)
              (YF := actual365) (Laws := gregorian_laws)
              yoy zero today january_store d 100%R)
    as (Hmissing & _ & _ & Hzero);
    [reflexivity | date_order | vm_compute; reflexivity | vm_compute; reflexivity |].
  split.
  - apply Hmissing. vm_compute. reflexivity.
  - apply Hzero; vm_compute; reflexivity.
Defined.

(** * The further properties on the sample data *)

Module GregorianDayFacts.
Import Gregorian GregorianFacts.

Lemma firstDayOfMonth_in_period d f :
  fst (inflationPeriod d f) <= firstDayOfMonth d.
Proof.
  rewrite inflationPeriod_eq. cbn [fst]. unfold firstDayOfMonth, mkDate.
  pose proof (month_bounds d) as Hm.
  pose proof (monthRange_spec f (month d) Hm) as [Ha _].
  pose proof (monthOffset_mono (isLeap (year d)) _ _ (proj1 Ha) (proj2 Ha) (proj2 Hm))
    as [Ho _].
  lia.
Qed.
End GregorianDayFacts.

Lemma gregorian_day_laws : @CalendarDayLaws gregorian.
Proof.
  constructor.
  - reflexivity.
  - exact GregorianDayFacts.firstDayOfMonth_in_period.
Qed.

Lemma january_store_uniform : periodUniform Monthly january_store.
Proof.
  apply (addFixing_preserves_uniform (RA := ideal_reals) (Laws := gregorian_laws)
           (sample_index true Monthly (mkPeriod 0 Days)) ∅ january_store
           (Gregorian.mkDate 10 1 2020) 100%R false).
  - vm_compute. reflexivity.
  - intros k. rewrite !lookup_empty. reflexivity.
Qed.


Lemma zero_fixing_without_curve_witness :
  let self := sample_zero true Monthly (mkPeriod 0 Days) None in
  let today := Gregorian.mkDate 15 6 2020 in
  outcome (ZeroInflationIndex.fixing self today level_store
             (Gregorian.mkDate 16 1 2020)) = Fail UnboundCurve
  /\ outcome (ZeroInflationIndex.fixing self today level_store
                (Gregorian.mkDate 1 1 2020)) = Ok 110%R.
Proof.
  intros self today. split.
  - apply (proj1 (proj2 (zero_fixing_without_curve self today level_store
                           (Gregorian.mkDate 16 1 2020) eq_refl)));
      [vm_compute; reflexivity | reflexivity | date_order
      | exists 110%R; reflexivity | exists 112%R; reflexivity].
  - apply (proj2 (proj2 (zero_fixing_without_curve self today level_store
                           (Gregorian.mkDate 1 1 2020) eq_refl)));
      [vm_compute; reflexivity | right; vm_compute; reflexivity | reflexivity].
Defined.

Lemma yoy_fixing_forecast_region_witness :
  let self := sample_yoy true true Monthly (mkPeriod 0 Days) in
  let today := Gregorian.mkDate 15 6 2020 in
  let d := Gregorian.mkDate 15 6 2020 in
  YoYInflationIndex.fixing self today level_store d
    = YoYInflationIndex.forecastFixing self d
  /\ keys (YoYInflationIndex.fixing self today level_store d) = [].
Proof.
  intros self today d.
  apply (yoy_fixing_forecast_region (Laws := gregorian_laws) self today level_store d);
    [cbn; lia | date_order].
Defined.

Lemma yoy_forecast_flat_across_period_witness :
  let self := sample_yoy false true Monthly (mkPeriod 0 Days) in
  YoYInflationIndex.forecastFixing self (Gregorian.mkDate 20 6 2020)
    = YoYInflationIndex.forecastFixing self (Gregorian.mkDate 10 6 2020).
Proof.
  intros self.
  apply (yoy_forecast_flat_across_period (Laws := gregorian_laws) self
           (Gregorian.mkDate 10 6 2020) (Gregorian.mkDate 20 6 2020));
    [reflexivity | split; date_order].
Defined.

Lemma yoy_clone_keeps_history_witness :
  let self := sample_yoy true false Monthly (mkPeriod 0 Days) in
  let other := Some {| YoYInflationTermStructure.yoyRate := fun _ _ => 0%R |} in
  let today := Gregorian.mkDate 15 6 2020 in
  let d := Gregorian.mkDate 16 1 2020 in
  YoYInflationIndex.fixing (YoYInflationIndex.clone self other) today level_store d
    = YoYInflationIndex.fixing self today level_store d.
Proof.
  intros self other today d.
  apply (yoy_clone_keeps_history self other today level_store d). date_order.
Defined.

Lemma frontier_is_period_start_witness :
  let zero := sample_zero false Quarterly (mkPeriod 1 Months) None in
  let yoy := sample_yoy false false Quarterly (mkPeriod 1 Months) in
  let today := Gregorian.mkDate 15 6 2020 in
  ZeroInflationIndex.historicalFixingKnown zero today = Gregorian.mkDate 31 3 2020
  /\ isPeriodStart Quarterly (ZeroInflationIndex.historicalFixingKnown zero today + 1)
  /\ isPeriodStart Quarterly (YoYInflationIndex.flatMustForecastOn yoy today).
Proof.
  intros zero yoy today.
  destruct (frontier_is_period_start (Laws := gregorian_laws) zero yoy today today)
    as (Hz & _ & Hy & _).
  split; [vm_compute; reflexivity|]. split; [exact Hz | exact Hy].
Defined.

Lemma zero_forecast_flat_across_period_witness :
  let self := sample_zero false Monthly (mkPeriod 0 Days)
                (Some (sample_curve (2 / 100)%R)) in
  let today := Gregorian.mkDate 15 6 2020 in
  ZeroInflationIndex.forecastFixing self today level_store (Gregorian.mkDate 30 9 2021)
    = ZeroInflationIndex.forecastFixing self today level_store
        (Gregorian.mkDate 15 9 2021).
Proof.
  intros self today.
  apply (zero_forecast_flat_across_period (Laws := gregorian_laws) self today
           level_store (Gregorian.mkDate 15 9 2021) (Gregorian.mkDate 30 9 2021));
    [reflexivity | split; date_order].
Defined.

Lemma addFixing_keeps_whole_periods_witness :
  january_store !! Gregorian.mkDate 31 1 2020 = Some 100%R
  /\ january_store !! Gregorian.mkDate 1 2 2020 = None.
Proof.
  destruct (addFixing_keeps_whole_periods (RA := ideal_reals)
              (Laws := gregorian_laws)
              (sample_index true Monthly (mkPeriod 0 Days)) ∅ january_store
              (Gregorian.mkDate 10 1 2020) 100%R false)
    as (Hin & Hout & _); [vm_compute; reflexivity|].
  split.
  - apply Hin. split; date_order.
  - rewrite Hout; [apply lookup_empty|]. intros [_ Hle]. revert Hle.
    apply Z.lt_nge. date_order.
Defined.

Lemma zero_flat_fixing_on_uniform_store_witness :
  let self := sample_zero false Monthly (mkPeriod 0 Days) None in
  let today := Gregorian.mkDate 25 1 2020 in
  let d := Gregorian.mkDate 20 1 2020 in
  outcome (ZeroInflationIndex.needsForecast self today january_store d) = Ok false
  /\ outcome (ZeroInflationIndex.fixing self today january_store d) = Ok 100%R.
Proof.
  intros self today d.
  destruct (zero_flat_fixing_on_uniform_store (Laws := gregorian_laws)
              (DayLaws := gregorian_day_laws) self today january_store d)
    as [Hn Hv];
    [exact january_store_uniform | reflexivity | split; date_order |].
  split; [rewrite Hn | apply Hv]; vm_compute; reflexivity.
Defined.

Lemma effectiveInterpolationType_resolves_witness :
  let index := sample_zero false Monthly (mkPeriod 0 Days) None in
  let today := Gregorian.mkDate 15 6 2020 in
  let date := Gregorian.mkDate 16 4 2020 in
  let lag := mkPeriod 3 Months in
  CPI.effectiveInterpolationType index CPI.AsIndex = CPI.Flat
  /\ outcome (CPI.laggedFixing index today level_store date lag CPI.AsIndex)
     = outcome (CPI.laggedFixing index today level_store date lag CPI.Flat).
Proof.
  intros index today date lag.
  destruct (effectiveInterpolationType_resolves (Laws := gregorian_laws)
              index CPI.AsIndex today level_store date lag) as (_ & _ & _ & Hsame).
  split; [reflexivity|].
  apply Hsame; [reflexivity | vm_compute; reflexivity | vm_compute; reflexivity].
Defined.




Lemma zero_interpolated_forecast_between_witness :
  let self := sample_zero true Monthly (mkPeriod 0 Days) None in
  let value :=
    ZeroInflationIndex.forecastValue self (sample_curve (2 / 100)%R)
      (Gregorian.mkDate 1 1 2020) 110%R in
  (value (Gregorian.mkDate 1 9 2021) <= value (Gregorian.mkDate 15 9 2021)
     <= value (Gregorian.mkDate 1 10 2021))%R.
Proof.
  intros self value.
  apply (proj1 (zero_interpolated_forecast_between (Laws := gregorian_laws)
                  self (sample_curve (2 / 100)%R) (Gregorian.mkDate 1 1 2020)
                  110%R (Gregorian.mkDate 15 9 2021) eq_refl)).
  change ((110 * Rpower (1 + 2 / 100)
                   (IZR (Gregorian.mkDate 1 9 2021 - Gregorian.mkDate 1 1 2020) / 365))
          <= 110 * Rpower (1 + 2 / 100)
                     (IZR (Gregorian.mkDate 1 10 2021 - Gregorian.mkDate 1 1 2020) / 365))%R.
  apply Rmult_le_compat_l; [lra|].
  apply Rle_Rpower; [lra|].
  apply Rmult_le_compat_r; [lra|]. apply IZR_le. vm_compute. discriminate.
Defined.

Lemma zero_fixing_recursion_bounded_witness :
  let self := sample_zero false Monthly (mkPeriod 0 Days)
                (Some (sample_curve (2 / 100)%R)) in
  let today := Gregorian.mkDate 15 6 2020 in
  outcome (ZeroInflationIndex.fixing self today level_store (Gregorian.mkDate 1 1 2020))
    = outcome (ZeroInflationIndex.historicalFixing self level_store
                 (Gregorian.mkDate 1 1 2020))
  /\ ZeroInflationIndex.fixing_fuel 5 self today level_store (Gregorian.mkDate 15 9 2021)
     = ZeroInflationIndex.fixing self today level_store (Gregorian.mkDate 15 9 2021).
Proof.
  intros self today.
  destruct (zero_fixing_recursion_bounded self today level_store
              (Gregorian.mkDate 15 9 2021)) as (Hfuel & Hbase & _).
  split.
  - apply (Hbase (sample_curve (2 / 100)%R) eq_refl). vm_compute. reflexivity.
  - apply Hfuel.
Defined.

Lemma zero_clone_keeps_history_witness :
  let self := sample_zero false Monthly (mkPeriod 0 Days) None in
  let other := Some (sample_curve (2 / 100)%R) in
  let today := Gregorian.mkDate 15 6 2020 in
  let d := Gregorian.mkDate 16 1 2020 in
  ZeroInflationIndex.fixing (ZeroInflationIndex.clone self other) today level_store d
    = ZeroInflationIndex.fixing self today level_store d.
Proof.
  intros self other today d.
  apply (zero_clone_keeps_history self other today level_store d);
    [vm_compute; reflexivity | left; reflexivity].
Defined.

